(** * Task manager: entity, storage initialiser, repository and service

    A shallow embedding of the Go packages [domain], [storage],
    [repository] and [service] of the task manager, and the properties
    of the persistence and service layer proved about them.

    Conventions of the embedding.
    - A Go [string] is a [string]; the named string types [TaskStatus]
      and [TaskPriority] are strings too, as in the source, so values
      outside the enumerated constants exist and are rejected by
      [Validate] and by the CHECK constraints of the schema.
    - A [time.Time] is the instant it denotes, an integer count of clock
      units ([Z]); [*time.Time] is an [option].  The zone a
      [time.Time] carries is not modelled.  The driver writes a
      timestamp as the text of its local wall-clock time and zone
      offset, and the engine compares and sorts that text; the engine
      here keeps and compares the instants, which is the same only while
      all the values it is given carry one whole-minute offset.  A
      timestamp the service has taken from the clock and stored is read
      back as the instant it was.  No property below rests on how the
      engine compares or sorts timestamps, nor on reading back a
      timestamp that did not come from the clock.
    - A Go [error] is a value of [error]; [nil] is [None].  A function
      returning [(T, error)] returns a [result T].
    - Everything outside the process is one [World]: the database file
      (schema catalogue, the [migrations] ledger, the rows of [tasks]),
      the record of calls made on the database handle and on the logger,
      the wall clock and the UUID generator.  Effectful functions are
      state transformers over it.
    - The database engine is not part of the repository; its behaviour on
      the statements the source issues is written out in [Module sqlite]. *)

From Stdlib Require Import ZArith List String Bool Lia Arith.
From Stdlib Require Import Permutation.
Import ListNotations.
Open Scope string_scope.
Open Scope list_scope.
Open Scope Z_scope.

(** ** Package errors / fmt: error values *)

(** Errors raised by the database driver for the statements used here. *)
Inductive sqlite_error : Type :=
| ConstraintPrimaryKey (* UNIQUE constraint failed: <table>.<pk> *)
| ConstraintCheck      (* CHECK constraint failed *)
| SQLError (msg : string).

(** Go error values.  The three sentinels of [domain] are compared by
    identity in Go, so they are constructors of their own: a fresh
    [errors.New] with the same text is a different value. *)
Inductive error : Type :=
| ErrTaskNotFound
| ErrInvalidTaskID
| ErrDuplicateTask
| errors_New (msg : string)
| fmt_Errorf (msg : string) (cause : error)  (* fmt.Errorf("msg: %w", cause) *)
| driver_error (e : sqlite_error).

Definition sqlite_error_eqb (a b : sqlite_error) : bool :=
  match a, b with
  | ConstraintPrimaryKey, ConstraintPrimaryKey => true
  | ConstraintCheck, ConstraintCheck => true
  | SQLError m, SQLError n => String.eqb m n
  | _, _ => false
  end.

(** [==] on error values. *)
Fixpoint error_eqb (a b : error) : bool :=
  match a, b with
  | ErrTaskNotFound, ErrTaskNotFound => true
  | ErrInvalidTaskID, ErrInvalidTaskID => true
  | ErrDuplicateTask, ErrDuplicateTask => true
  | errors_New m, errors_New n => String.eqb m n
  | fmt_Errorf m c, fmt_Errorf n d => String.eqb m n && error_eqb c d
  | driver_error e, driver_error f => sqlite_error_eqb e f
  | _, _ => false
  end.

(** [errors.Is(err, target)]: follows the [%w] chain. *)
Fixpoint errors_Is (err target : error) : bool :=
  error_eqb err target ||
  match err with
  | fmt_Errorf _ cause => errors_Is cause target
  | _ => false
  end.

Inductive result (A : Type) : Type :=
| Ok (a : A)
| Err (e : error).
Arguments Ok {A} a.
Arguments Err {A} e.

(** ** Package domain *)

Module domain.

Definition Time := Z.

Definition TaskStatus := string.
Definition TaskStatusPending : TaskStatus := "pending".
Definition TaskStatusCompleted : TaskStatus := "completed".

Definition TaskPriority := string.
Definition TaskPriorityLow : TaskPriority := "low".
Definition TaskPriorityMedium : TaskPriority := "medium".
Definition TaskPriorityHigh : TaskPriority := "high".

Record Task : Type := mkTask {
  ID : string;
  Title : string;
  Description : string;
  Status : TaskStatus;
  Priority : TaskPriority;
  CreatedAt : Time;
  UpdatedAt : Time;
  CompletedAt : option Time
}.

(** The four optional criteria of a list query (pointers in Go). *)
Record TaskFilter : Type := mkTaskFilter {
  FilterStatus : option TaskStatus;
  FilterPriority : option TaskPriority;
  FromDate : option Time;
  ToDate : option Time
}.

Definition Validate (t : Task) : option error :=
  if String.eqb (Title t) "" then
    Some (errors_New "task title cannot be empty")
  else if negb (String.eqb (Status t) TaskStatusPending)
          && negb (String.eqb (Status t) TaskStatusCompleted) then
    Some (errors_New "invalid task status")
  else if negb (String.eqb (Priority t) TaskPriorityLow)
          && negb (String.eqb (Priority t) TaskPriorityMedium)
          && negb (String.eqb (Priority t) TaskPriorityHigh) then
    Some (errors_New "invalid task priority")
  else None.

(** [MarkCompleted], with the one reading [now] of the clock it takes
    passed in. *)
Definition MarkCompleted (now : Time) (t : Task) : Task :=
  {| ID := ID t; Title := Title t; Description := Description t;
     Status := TaskStatusCompleted; Priority := Priority t;
     CreatedAt := CreatedAt t; UpdatedAt := now;
     CompletedAt := Some now |}.

End domain.
Import domain.

(** ** The database engine, on the statements the source issues *)

Module sqlite.

(** *** Schema catalogue *)

Definition TableDef : Type := string * list string.        (* name, columns *)
Definition IndexDef : Type := string * (string * string).  (* name, table, column *)

Inductive DDL : Type :=
| CREATE_TABLE_IF_NOT_EXISTS (name : string) (cols : list string)
| CREATE_INDEX_IF_NOT_EXISTS (name table col : string).

Definition has_name {A} (n : string) (l : list (string * A)) : bool :=
  existsb (fun d => String.eqb (fst d) n) l.

Fixpoint find_table (n : string) (ts : list TableDef) : option (list string) :=
  match ts with
  | [] => None
  | (m, cols) :: ts' => if String.eqb m n then Some cols else find_table n ts'
  end.

Definition has_column (c : string) (cols : list string) : bool :=
  existsb (String.eqb c) cols.

(** One DDL statement against the catalogue. *)
Definition exec_ddl (s : DDL) (ts : list TableDef) (ixs : list IndexDef)
  : sqlite_error + (list TableDef * list IndexDef) :=
  match s with
  | CREATE_TABLE_IF_NOT_EXISTS n cols =>
      if has_name n ts then inr (ts, ixs)
      else if has_name n ixs then inl (SQLError "there is already an index with this name")
      else inr (ts ++ [(n, cols)], ixs)
  | CREATE_INDEX_IF_NOT_EXISTS n t c =>
      match find_table t ts with
      | None => inl (SQLError "no such table")
      | Some cols =>
          if has_name n ts then inl (SQLError "there is already a table with this name")
          else if has_name n ixs then inr (ts, ixs)
          else if has_column c cols then inr (ts, ixs ++ [(n, (t, c))])
          else inl (SQLError "no such column")
      end
  end.

(** A script of several statements: executed in order, stopping at the
    first failure. *)
Fixpoint exec_script (script : list DDL) (ts : list TableDef) (ixs : list IndexDef)
  : sqlite_error + (list TableDef * list IndexDef) :=
  match script with
  | [] => inr (ts, ixs)
  | s :: script' =>
      match exec_ddl s ts ixs with
      | inl e => inl e
      | inr (ts', ixs') => exec_script script' ts' ixs'
      end
  end.

(** *** Rows of [tasks]

    A row has the eight columns of the table, which are the eight
    fields of [Task]; the table is the list of its rows in insertion
    order. *)

(** The two CHECK constraints of the table. *)
Definition check_ok (r : Task) : bool :=
  (String.eqb (Status r) "pending" || String.eqb (Status r) "completed")
  && (String.eqb (Priority r) "low" || String.eqb (Priority r) "medium"
      || String.eqb (Priority r) "high").

Definition has_id (id : string) (r : Task) : bool := String.eqb (ID r) id.

(** INSERT INTO tasks (...) VALUES (...): CHECK constraints, then the
    primary key. *)
Definition insert (r : Task) (rows : list Task) : sqlite_error + list Task :=
  if negb (check_ok r) then inl ConstraintCheck
  else if existsb (has_id (ID r)) rows then inl ConstraintPrimaryKey
  else inr (rows ++ [r]).

(** SELECT ... FROM tasks WHERE id = ? as read by [QueryRow]: the first
    matching row. *)
Definition select_by_id (id : string) (rows : list Task) : option Task :=
  find (has_id id) rows.

(** The six columns an UPDATE writes. *)
Definition set_columns (new r : Task) : Task :=
  {| ID := ID r; Title := Title new; Description := Description new;
     Status := Status new; Priority := Priority new;
     CreatedAt := CreatedAt r; UpdatedAt := UpdatedAt new;
     CompletedAt := CompletedAt new |}.

Definition rows_matching (id : string) (rows : list Task) : nat :=
  List.length (filter (has_id id) rows).

(** UPDATE tasks SET ... WHERE id = ?: the matched rows are rewritten,
    each rewritten row is checked; the result is the new table and the
    number of rows affected. *)
Definition update (new : Task) (rows : list Task) : sqlite_error + (list Task * nat) :=
  let rows' := map (fun r => if has_id (ID new) r then set_columns new r else r) rows in
  if forallb check_ok (filter (has_id (ID new)) rows') then
    inr (rows', rows_matching (ID new) rows)
  else inl ConstraintCheck.

(** DELETE FROM tasks WHERE id = ? *)
Definition delete (id : string) (rows : list Task) : list Task * nat :=
  (filter (fun r => negb (has_id id r)) rows, rows_matching id rows).

(** *** The list query

    The two bounds on [created_at] and the sort key are compared here as
    instants (see the conventions at the head of the file). *)

(** The predicates that may follow [WHERE 1=1], each with one [?]. *)
Inductive Pred : Type :=
| status_eq      (* AND status = ? *)
| priority_eq    (* AND priority = ? *)
| created_at_ge  (* AND created_at >= ? *)
| created_at_le. (* AND created_at <= ? *)

Inductive Arg : Type :=
| ArgText (s : string)
| ArgTime (t : Time).

Definition holds (p : Pred) (a : Arg) (r : Task) : option bool :=
  match p, a with
  | status_eq, ArgText s => Some (String.eqb (Status r) s)
  | priority_eq, ArgText s => Some (String.eqb (Priority r) s)
  | created_at_ge, ArgTime t => Some (t <=? CreatedAt r)
  | created_at_le, ArgTime t => Some (CreatedAt r <=? t)
  | _, _ => None
  end.

(** The WHERE clause on one row; [None] when the bound arguments do not
    fit the placeholders. *)
Fixpoint where_holds (ps : list Pred) (args : list Arg) (r : Task) : option bool :=
  match ps, args with
  | [], [] => Some true
  | p :: ps', a :: args' =>
      match holds p a r, where_holds ps' args' r with
      | Some b, Some b' => Some (b && b')
      | _, _ => None
      end
  | _, _ => None
  end.

Fixpoint select_where (ps : list Pred) (args : list Arg) (rows : list Task)
  : option (list Task) :=
  match rows with
  | [] => if Nat.eqb (List.length ps) (List.length args) then Some [] else None
  | r :: rows' =>
      match where_holds ps args r, select_where ps args rows' with
      | Some b, Some l => Some (if b then r :: l else l)
      | _, _ => None
      end
  end.

(** ORDER BY created_at DESC.  SQL leaves the order among rows with
    equal [created_at] open; here they keep their table order. *)
Fixpoint insert_desc (r : Task) (l : list Task) : list Task :=
  match l with
  | [] => [r]
  | x :: l' => if CreatedAt x <=? CreatedAt r then r :: l
               else x :: insert_desc r l'
  end.

Fixpoint order_by_created_at_desc (l : list Task) : list Task :=
  match l with
  | [] => []
  | r :: l' => insert_desc r (order_by_created_at_desc l')
  end.

End sqlite.

(** ** The world outside the process *)

Inductive Level : Type := LevelDebug | LevelInfo | LevelWarn | LevelError.

(** What is sent through the database handle. *)
Inductive Statement : Type :=
| CreateLedger                                      (* CREATE TABLE IF NOT EXISTS migrations *)
| SelectLedger                                      (* SELECT version FROM migrations *)
| Script (content : list sqlite.DDL)                (* the text of one migration *)
| RecordVersion (version : string)                  (* INSERT INTO migrations (version) *)
| InsertTask (task : Task)
| SelectByID (id : string)
| SelectWhere (ps : list sqlite.Pred) (args : list sqlite.Arg)
| UpdateTaskRow (task : Task)
| DeleteByID (id : string).

Inductive Event : Type :=
| Logged (lvl : Level) (msg : string)
| Sent (s : Statement)
| TxBegin
| TxCommit
| TxRollback.

Record World : Type := mkWorld {
  tables : list sqlite.TableDef;
  indexes : list sqlite.IndexDef;
  ledger : list string;       (* column [version] of the rows of [migrations] *)
  tasks : list Task;          (* rows of [tasks] *)
  trace : list Event;         (* calls made so far, oldest first *)
  clock : nat -> Time;        (* the n-th reading of the wall clock *)
  clock_reads : nat;          (* readings taken so far *)
  uuid : nat -> string;       (* the n-th identifier the generator yields *)
  uuid_draws : nat            (* identifiers drawn so far *)
}.

(** The part of the world a transaction can roll back. *)
Definition Snapshot : Type :=
  (list sqlite.TableDef * list sqlite.IndexDef) * (list string * list Task).

Definition set_catalogue (ts : list sqlite.TableDef) (ixs : list sqlite.IndexDef)
  (w : World) : World :=
  mkWorld ts ixs (ledger w) (tasks w) (trace w)
          (clock w) (clock_reads w) (uuid w) (uuid_draws w).

Definition set_ledger (l : list string) (w : World) : World :=
  mkWorld (tables w) (indexes w) l (tasks w) (trace w)
          (clock w) (clock_reads w) (uuid w) (uuid_draws w).

Definition set_tasks (rows : list Task) (w : World) : World :=
  mkWorld (tables w) (indexes w) (ledger w) rows (trace w)
          (clock w) (clock_reads w) (uuid w) (uuid_draws w).

Definition record (e : Event) (w : World) : World :=
  mkWorld (tables w) (indexes w) (ledger w) (tasks w) (trace w ++ [e])
          (clock w) (clock_reads w) (uuid w) (uuid_draws w).

Definition snapshot (w : World) : Snapshot :=
  ((tables w, indexes w), (ledger w, tasks w)).

Definition restore (s : Snapshot) (w : World) : World :=
  mkWorld (fst (fst s)) (snd (fst s)) (fst (snd s)) (snd (snd s)) (trace w)
          (clock w) (clock_reads w) (uuid w) (uuid_draws w).

(** State transformers over the world. *)
Definition State (A : Type) : Type := World -> A * World.

Definition ret {A} (a : A) : State A := fun w => (a, w).

Definition bind {A B} (m : State A) (k : A -> State B) : State B :=
  fun w => let (a, w') := m w in k a w'.

Notation "x <- m ;; k" := (bind m (fun x => k))
  (at level 61, m at next level, right associativity).
Notation "m ;; k" := (bind m (fun _ => k))
  (at level 61, right associativity).

(** [time.Now()] *)
Definition time_Now : State Time :=
  fun w => (clock w (clock_reads w),
            mkWorld (tables w) (indexes w) (ledger w) (tasks w) (trace w)
                    (clock w) (S (clock_reads w)) (uuid w) (uuid_draws w)).

(** [uuid.New().String()] *)
Definition uuid_New : State string :=
  fun w => (uuid w (uuid_draws w),
            mkWorld (tables w) (indexes w) (ledger w) (tasks w) (trace w)
                    (clock w) (clock_reads w) (uuid w) (S (uuid_draws w))).

(** [*slog.Logger]: the record of level and message. *)
Definition logger (lvl : Level) (msg : string) : State unit :=
  fun w => (tt, record (Logged lvl msg) w).

(** ** Package database/sql: the calls on the handle

    Each call is recorded in the trace and then served by the engine.
    The handle itself is reliable: a call fails only for a reason SQL
    gives (a constraint, the catalogue). *)

Module sql.

Definition ExecContext_CreateLedger : State (option sqlite_error) :=
  fun w =>
    let w := record (Sent CreateLedger) w in
    match sqlite.exec_ddl
            (sqlite.CREATE_TABLE_IF_NOT_EXISTS "migrations" ["version"; "applied_at"])
            (tables w) (indexes w) with
    | inl e => (Some e, w)
    | inr (ts, ixs) => (None, set_catalogue ts ixs w)
    end.

Definition QueryContext_SelectLedger : State (sqlite_error + list string) :=
  fun w =>
    let w := record (Sent SelectLedger) w in
    match sqlite.find_table "migrations" (tables w) with
    | None => (inl (SQLError "no such table"), w)
    | Some cols =>
        if sqlite.has_column "version" cols then (inr (ledger w), w)
        else (inl (SQLError "no such column"), w)
    end.

Definition BeginTx : State Snapshot :=
  fun w => (snapshot w, record TxBegin w).

Definition Rollback (tx : Snapshot) : State unit :=
  fun w => (tt, restore tx (record TxRollback w)).

Definition Commit : State unit :=
  fun w => (tt, record TxCommit w).

Definition ExecContext_Script (content : list sqlite.DDL) : State (option sqlite_error) :=
  fun w =>
    let w := record (Sent (Script content)) w in
    match sqlite.exec_script content (tables w) (indexes w) with
    | inl e => (Some e, w)
    | inr (ts, ixs) => (None, set_catalogue ts ixs w)
    end.

Definition ExecContext_RecordVersion (version : string) : State (option sqlite_error) :=
  fun w =>
    let w := record (Sent (RecordVersion version)) w in
    match sqlite.find_table "migrations" (tables w) with
    | None => (Some (SQLError "no such table"), w)
    | Some cols =>
        if negb (sqlite.has_column "version" cols) then
          (Some (SQLError "no such column"), w)
        else if existsb (String.eqb version) (ledger w) then
          (Some ConstraintPrimaryKey, w)
        else (None, set_ledger (ledger w ++ [version]) w)
    end.

Definition ExecContext_InsertTask (task : Task) : State (option sqlite_error) :=
  fun w =>
    let w := record (Sent (InsertTask task)) w in
    match sqlite.insert task (tasks w) with
    | inl e => (Some e, w)
    | inr rows => (None, set_tasks rows w)
    end.

(** [QueryRowContext(...).Scan(...)]: [None] is [sql.ErrNoRows]. *)
Definition QueryRowContext_SelectByID (id : string) : State (option Task) :=
  fun w =>
    let w := record (Sent (SelectByID id)) w in
    (sqlite.select_by_id id (tasks w), w).

(** [QueryContext] with the rows read to the end. *)
Definition QueryContext_SelectWhere (ps : list sqlite.Pred) (args : list sqlite.Arg)
  : State (sqlite_error + list Task) :=
  fun w =>
    let w := record (Sent (SelectWhere ps args)) w in
    match sqlite.select_where ps args (tasks w) with
    | None => (inl (SQLError "wrong number or type of bound arguments"), w)
    | Some rows => (inr (sqlite.order_by_created_at_desc rows), w)
    end.

(** [ExecContext] of the UPDATE, with [RowsAffected()] of its result. *)
Definition ExecContext_UpdateTaskRow (task : Task) : State (sqlite_error + nat) :=
  fun w =>
    let w := record (Sent (UpdateTaskRow task)) w in
    match sqlite.update task (tasks w) with
    | inl e => (inl e, w)
    | inr (rows, n) => (inr n, set_tasks rows w)
    end.

(** [ExecContext] of the DELETE, with [RowsAffected()] of its result. *)
Definition ExecContext_DeleteByID (id : string) : State nat :=
  fun w =>
    let w := record (Sent (DeleteByID id)) w in
    let (rows, n) := sqlite.delete id (tasks w) in
    (n, set_tasks rows w).

End sql.

(** ** Package storage *)

Module storage.

(** The inline map from migration version to its SQL. *)
Definition migrations : list (string * list sqlite.DDL) :=
  [ ("001_create_tasks_table",
     [ sqlite.CREATE_TABLE_IF_NOT_EXISTS "tasks"
         ["id"; "title"; "description"; "status"; "priority";
          "created_at"; "updated_at"; "completed_at"];
       sqlite.CREATE_INDEX_IF_NOT_EXISTS "idx_tasks_status" "tasks" "status";
       sqlite.CREATE_INDEX_IF_NOT_EXISTS "idx_tasks_priority" "tasks" "priority";
       sqlite.CREATE_INDEX_IF_NOT_EXISTS "idx_tasks_created_at" "tasks" "created_at" ]) ].

(** [migrations[version]]; the zero value when the key is absent. *)
Fixpoint lookup (version : string) (m : list (string * list sqlite.DDL))
  : list sqlite.DDL :=
  match m with
  | [] => []
  | (v, content) :: m' => if String.eqb v version then content else lookup version m'
  end.

(** [sort.Strings] *)
Fixpoint insert_sorted (s : string) (l : list string) : list string :=
  match l with
  | [] => [s]
  | x :: l' => if String.leb s x then s :: l else x :: insert_sorted s l'
  end.

Fixpoint sort_Strings (l : list string) : list string :=
  match l with
  | [] => []
  | s :: l' => insert_sorted s (sort_Strings l')
  end.

(** [getAppliedMigrations]: the set of versions in the ledger, as the
    list of ledger rows; [applied[v]] is membership. *)
Definition getAppliedMigrations : State (result (list string)) :=
  r <- sql.QueryContext_SelectLedger ;;
  match r with
  | inl e => ret (Err (driver_error e))
  | inr rows => ret (Ok rows)
  end.

Definition is_applied (applied : list string) (version : string) : bool :=
  existsb (String.eqb version) applied.

(** The loop "Apply pending migrations" over the sorted versions. *)
Fixpoint applyPending (applied : list string) (versions : list string)
  : State (option error) :=
  match versions with
  | [] => ret None
  | version :: rest =>
      if is_applied applied version then
        logger LevelDebug "Migration already applied" ;;
        applyPending applied rest
      else
        logger LevelInfo "Applying migration" ;;
        let content := lookup version migrations in
        tx <- sql.BeginTx ;;
        r <- sql.ExecContext_Script content ;;
        match r with
        | Some e =>
            sql.Rollback tx ;;
            ret (Some (fmt_Errorf (String.append "failed to execute migration " version)
                                  (driver_error e)))
        | None =>
            r' <- sql.ExecContext_RecordVersion version ;;
            match r' with
            | Some e =>
                sql.Rollback tx ;;
                ret (Some (fmt_Errorf (String.append "failed to record migration " version)
                                      (driver_error e)))
            | None =>
                sql.Commit ;;
                logger LevelInfo "Migration applied successfully" ;;
                applyPending applied rest
            end
        end
  end.

Definition runMigrations : State (option error) :=
  r <- sql.ExecContext_CreateLedger ;;
  match r with
  | Some e => ret (Some (fmt_Errorf "failed to create migrations table" (driver_error e)))
  | None =>
      a <- getAppliedMigrations ;;
      match a with
      | Err e => ret (Some (fmt_Errorf "failed to get applied migrations" e))
      | Ok appliedMigrations =>
          let versions := sort_Strings (map fst migrations) in
          applyPending appliedMigrations versions
      end
  end.

End storage.

(** ** Package repository

    The repository is built on the handle of an initialised storage, so
    the [tasks] table exists whenever one of these runs. *)

Module repository.

Definition Create (task : Task) : State (option error) :=
  r <- sql.ExecContext_InsertTask task ;;
  match r with
  | Some e =>
      logger LevelError "Failed to create task" ;;
      ret (Some (fmt_Errorf "failed to create task" (driver_error e)))
  | None =>
      logger LevelInfo "Task created" ;;
      ret None
  end.

Definition GetByID (id : string) : State (result Task) :=
  r <- sql.QueryRowContext_SelectByID id ;;
  match r with
  | None => ret (Err ErrTaskNotFound)
  | Some task => ret (Ok task)
  end.

(** The query text and the argument list, as [List] grows them. *)
Definition add_pred {A} (o : option A) (p : sqlite.Pred) (inj : A -> sqlite.Arg)
  (q : list sqlite.Pred * list sqlite.Arg) : list sqlite.Pred * list sqlite.Arg :=
  match o with
  | Some v => (fst q ++ [p], snd q ++ [inj v])
  | None => q
  end.

Definition build_query (filter : TaskFilter) : list sqlite.Pred * list sqlite.Arg :=
  let q := ([], []) in
  let q := add_pred (FilterStatus filter) sqlite.status_eq sqlite.ArgText q in
  let q := add_pred (FilterPriority filter) sqlite.priority_eq sqlite.ArgText q in
  let q := add_pred (FromDate filter) sqlite.created_at_ge sqlite.ArgTime q in
  let q := add_pred (ToDate filter) sqlite.created_at_le sqlite.ArgTime q in
  q.

Definition List (filter : TaskFilter) : State (result (list Task)) :=
  let (query, args) := build_query filter in
  r <- sql.QueryContext_SelectWhere query args ;;
  match r with
  | inl e =>
      logger LevelError "Failed to list tasks" ;;
      ret (Err (fmt_Errorf "failed to list tasks" (driver_error e)))
  | inr tasks => ret (Ok tasks)
  end.

(** The write of [Update]: everything after the existence check. *)
Definition Update_write (task : Task) : State (option error) :=
  r <- sql.ExecContext_UpdateTaskRow task ;;
  match r with
  | inl e =>
      logger LevelError "Failed to update task" ;;
      ret (Some (fmt_Errorf "failed to update task" (driver_error e)))
  | inr rowsAffected =>
      if Nat.eqb rowsAffected 0 then ret (Some ErrTaskNotFound)
      else
        logger LevelInfo "Task updated" ;;
        ret None
  end.

(** [GetByID] returns a task or an error, never neither, so the test
    [existing == nil] after a nil error has no case of its own. *)
Definition Update (task : Task) : State (option error) :=
  existing <- GetByID (ID task) ;;
  match existing with
  | Err err => ret (Some err)
  | Ok _ => Update_write task
  end.

Definition Delete (id : string) : State (option error) :=
  rowsAffected <- sql.ExecContext_DeleteByID id ;;
  if Nat.eqb rowsAffected 0 then ret (Some ErrTaskNotFound)
  else
    logger LevelInfo "Task deleted" ;;
    ret None.

End repository.

(** ** Package service *)

Module service.

Definition CreateTask (title description : string) (priority : TaskPriority)
  : State (result Task) :=
  id <- uuid_New ;;
  createdAt <- time_Now ;;
  updatedAt <- time_Now ;;
  let task := {| ID := id; Title := title; Description := description;
                 Status := TaskStatusPending; Priority := priority;
                 CreatedAt := createdAt; UpdatedAt := updatedAt;
                 CompletedAt := None |} in
  match Validate task with
  | Some err =>
      logger LevelWarn "Task validation failed" ;;
      ret (Err (fmt_Errorf "task validation failed" err))
  | None =>
      r <- repository.Create task ;;
      match r with
      | Some err =>
          logger LevelError "Failed to create task" ;;
          ret (Err (fmt_Errorf "failed to create task" err))
      | None =>
          logger LevelInfo "Task created successfully" ;;
          ret (Ok task)
      end
  end.

Definition GetTask (id : string) : State (result Task) :=
  if String.eqb id "" then ret (Err ErrInvalidTaskID)
  else
    r <- repository.GetByID id ;;
    match r with
    | Err err =>
        logger LevelError "Failed to get task" ;;
        ret (Err err)
    | Ok task => ret (Ok task)
    end.

Definition ListTasks (filter : TaskFilter) : State (result (list Task)) :=
  r <- repository.List filter ;;
  match r with
  | Err err =>
      logger LevelError "Failed to list tasks" ;;
      ret (Err (fmt_Errorf "failed to list tasks" err))
  | Ok tasks =>
      logger LevelDebug "Tasks listed" ;;
      ret (Ok tasks)
  end.

(** The three conditional assignments of [UpdateTask] and the refresh
    of [UpdatedAt]. *)
Definition merge (task : Task) (title description : string)
  (priority : TaskPriority) (now : Time) : Task :=
  {| ID := ID task;
     Title := if String.eqb title "" then Title task else title;
     Description := if String.eqb description "" then Description task else description;
     Status := Status task;
     Priority := if String.eqb priority "" then Priority task else priority;
     CreatedAt := CreatedAt task;
     UpdatedAt := now;
     CompletedAt := CompletedAt task |}.

Definition UpdateTask (id title description : string) (priority : TaskPriority)
  : State (result Task) :=
  if String.eqb id "" then ret (Err ErrInvalidTaskID)
  else
    r <- repository.GetByID id ;;
    match r with
    | Err err =>
        logger LevelError "Failed to get task for update" ;;
        ret (Err err)
    | Ok task =>
        now <- time_Now ;;
        let task := merge task title description priority now in
        match Validate task with
        | Some err =>
            logger LevelWarn "Task validation failed" ;;
            ret (Err (fmt_Errorf "task validation failed" err))
        | None =>
            u <- repository.Update task ;;
            match u with
            | Some err =>
                logger LevelError "Failed to update task" ;;
                ret (Err (fmt_Errorf "failed to update task" err))
            | None =>
                logger LevelInfo "Task updated successfully" ;;
                ret (Ok task)
            end
        end
    end.

Definition CompleteTask (id : string) : State (result Task) :=
  if String.eqb id "" then ret (Err ErrInvalidTaskID)
  else
    r <- repository.GetByID id ;;
    match r with
    | Err err =>
        logger LevelError "Failed to get task for completion" ;;
        ret (Err err)
    | Ok task =>
        if String.eqb (Status task) TaskStatusCompleted then
          logger LevelWarn "Task already completed" ;;
          ret (Ok task)
        else
          now <- time_Now ;;
          let task := MarkCompleted now task in
          u <- repository.Update task ;;
          match u with
          | Some err =>
              logger LevelError "Failed to complete task" ;;
              ret (Err (fmt_Errorf "failed to complete task" err))
          | None =>
              logger LevelInfo "Task completed successfully" ;;
              ret (Ok task)
          end
    end.

Definition DeleteTask (id : string) : State (option error) :=
  if String.eqb id "" then ret (Some ErrInvalidTaskID)
  else
    r <- repository.Delete id ;;
    match r with
    | Some err =>
        logger LevelError "Failed to delete task" ;;
        ret (Some err)
    | None =>
        logger LevelInfo "Task deleted successfully" ;;
        ret None
    end.

End service.

(** ** Package config

    The process environment, the file system, the YAML decoder and the
    two library functions used on strings are outside the package; they
    are the fields of [OS]. *)

Module config.

Record DatabaseConfig : Type := mkDatabaseConfig {
  Type' : string;    (* sqlite or postgres *)
  Path : string;
  Host : string;
  Port : Z;
  Name : string;
  User : string;
  Password : string;
  SSLMode : string
}.

Record LoggingConfig : Type := mkLoggingConfig {
  Level : string;
  Format : string
}.

Record Config : Type := mkConfig {
  Database : DatabaseConfig;
  Logging : LoggingConfig
}.

(** What [os.Stat] and [os.ReadFile] find at a path. *)
Inductive File : Type :=
| NotExist
| Unreadable (e : error)
| Content (data : string).

Record OS : Type := mkOS {
  Getenv : string -> string;               (* the empty string when unset *)
  UserHomeDir : result string;
  file_at : string -> File;
  yaml_Unmarshal : string -> Config -> option error * Config;
  Sscanf_d : string -> option Z;           (* fmt.Sscanf(value, "%d", &n) *)
  filepath_Join : list string -> string
}.

Definition getEnvOrDefault (os : OS) (key defaultValue : string) : string :=
  if String.eqb (Getenv os key) "" then defaultValue else Getenv os key.

Definition getEnvIntOrDefault (os : OS) (key : string) (defaultValue : Z) : Z :=
  if String.eqb (Getenv os key) "" then defaultValue
  else match Sscanf_d os (Getenv os key) with
       | Some intValue => intValue
       | None => defaultValue
       end.

Definition loadFromFile (os : OS) (path : string) (cfg : Config) (explicit : bool)
  : option error * Config :=
  if String.eqb path "" then (None, cfg)
  else match file_at os path with
       | NotExist =>
           if explicit then
             (Some (errors_New (String.append "config file not found: " path)), cfg)
           else (None, cfg)
       | Unreadable e => (Some (fmt_Errorf "failed to read config file" e), cfg)
       | Content data =>
           match yaml_Unmarshal os data cfg with
           | (Some e, cfg') => (Some (fmt_Errorf "failed to parse config file" e), cfg')
           | (None, cfg') => (None, cfg')
           end
       end.

Definition set_Path (p : string) (c : Config) : Config :=
  mkConfig (mkDatabaseConfig (Type' (Database c)) p (Host (Database c))
              (Port (Database c)) (Name (Database c)) (User (Database c))
              (Password (Database c)) (SSLMode (Database c)))
           (Logging c).

Definition validLogLevels : list string := ["debug"; "info"; "warn"; "error"].
Definition validLogFormats : list string := ["json"; "text"].

Definition is_key (m : list string) (k : string) : bool := existsb (String.eqb k) m.

(** The checks of [Validate] after the one on the database type and the
    default of the SQLite path. *)
Definition Validate_rest (c : Config) : option error * Config :=
  if String.eqb (Type' (Database c)) "postgres"
     && String.eqb (Host (Database c)) "" then
    (Some (errors_New "database host is required for PostgreSQL"), c)
  else if String.eqb (Type' (Database c)) "postgres"
          && String.eqb (Name (Database c)) "" then
    (Some (errors_New "database name is required for PostgreSQL"), c)
  else if String.eqb (Type' (Database c)) "postgres"
          && String.eqb (User (Database c)) "" then
    (Some (errors_New "database user is required for PostgreSQL"), c)
  else if negb (is_key validLogLevels (Level (Logging c))) then
    (Some (errors_New (String.append "invalid log level: "
                         (String.append (Level (Logging c))
                            " (must be debug, info, warn, or error)"))), c)
  else if negb (is_key validLogFormats (Format (Logging c))) then
    (Some (errors_New (String.append "invalid log format: "
                         (String.append (Format (Logging c))
                            " (must be json or text)"))), c)
  else (None, c).

(** [Validate] has a pointer receiver: it returns the error and the
    configuration as it has left it. *)
Definition Validate (os : OS) (c : Config) : option error * Config :=
  if negb (String.eqb (Type' (Database c)) "sqlite")
     && negb (String.eqb (Type' (Database c)) "postgres") then
    (Some (errors_New "database type must be 'sqlite' or 'postgres'"), c)
  else if String.eqb (Type' (Database c)) "sqlite"
          && String.eqb (Path (Database c)) "" then
    match UserHomeDir os with
    | Err err => (Some (fmt_Errorf "failed to get user home directory" err), c)
    | Ok homeDir =>
        Validate_rest (set_Path (filepath_Join os [homeDir; ".task-manager"; "tasks.db"]) c)
    end
  else Validate_rest c.

Definition envVars : list string :=
  ["DB_TYPE"; "DB_PATH"; "DB_HOST"; "DB_PORT"; "DB_NAME"; "DB_USER";
   "DB_PASSWORD"; "DB_SSL_MODE"; "LOG_LEVEL"; "LOG_FORMAT"].

(** The map [envOverrides], as the list of its entries. *)
Fixpoint collect_overrides (os : OS) (keys : list string) : list (string * string) :=
  match keys with
  | [] => []
  | key :: keys' =>
      if String.eqb (Getenv os key) "" then collect_overrides os keys'
      else (key, Getenv os key) :: collect_overrides os keys'
  end.

Fixpoint map_lookup (m : list (string * string)) (k : string) : option string :=
  match m with
  | [] => None
  | (k', v) :: m' => if String.eqb k' k then Some v else map_lookup m' k
  end.

(** One [if _, ok := envOverrides[key]; ok { field = envOverrides[key] }]. *)
Definition reapply (m : list (string * string)) (key : string) (current : string) : string :=
  match map_lookup m key with
  | Some v => v
  | None => current
  end.

Definition reapply_overrides (os : OS) (m : list (string * string)) (c : Config) : Config :=
  mkConfig
    (mkDatabaseConfig
       (reapply m "DB_TYPE" (Type' (Database c)))
       (reapply m "DB_PATH" (Path (Database c)))
       (reapply m "DB_HOST" (Host (Database c)))
       (match map_lookup m "DB_PORT" with
        | Some _ => getEnvIntOrDefault os "DB_PORT" (Port (Database c))
        | None => Port (Database c)
        end)
       (reapply m "DB_NAME" (Name (Database c)))
       (reapply m "DB_USER" (User (Database c)))
       (reapply m "DB_PASSWORD" (Password (Database c)))
       (reapply m "DB_SSL_MODE" (SSLMode (Database c))))
    (mkLoggingConfig
       (reapply m "LOG_LEVEL" (Level (Logging c)))
       (reapply m "LOG_FORMAT" (Format (Logging c)))).

Definition defaults (os : OS) : Config :=
  mkConfig
    (mkDatabaseConfig
       (getEnvOrDefault os "DB_TYPE" "sqlite")
       (getEnvOrDefault os "DB_PATH" "")
       (getEnvOrDefault os "DB_HOST" "localhost")
       (getEnvIntOrDefault os "DB_PORT" 5432)
       (getEnvOrDefault os "DB_NAME" "taskmanager")
       (getEnvOrDefault os "DB_USER" "")
       (getEnvOrDefault os "DB_PASSWORD" "")
       (getEnvOrDefault os "DB_SSL_MODE" "disable"))
    (mkLoggingConfig
       (getEnvOrDefault os "LOG_LEVEL" "info")
       (getEnvOrDefault os "LOG_FORMAT" "text")).

Definition Load (os : OS) : result Config :=
  let cfg := defaults os in
  let envOverrides := collect_overrides os envVars in
  let configPath := getEnvOrDefault os "CONFIG_FILE" "config.yaml" in
  let configExplicit := negb (String.eqb (Getenv os "CONFIG_FILE") "") in
  let loaded :=
    if negb (String.eqb configPath "") then loadFromFile os configPath cfg configExplicit
    else (None, cfg) in
  match fst loaded, configExplicit with
  | Some err, true => Err (fmt_Errorf "failed to load config file" err)
  | _, _ =>
      match Validate os (reapply_overrides os envOverrides (snd loaded)) with
      | (Some err, _) => Err (fmt_Errorf "invalid configuration" err)
      | (None, cfg') => Ok cfg'
      end
  end.

End config.

(** ** Notions used by the properties *)

(** The table respects its primary key and its CHECK constraints. *)
Definition table_ok (rows : list Task) : Prop :=
  NoDup (map ID rows) /\ Forall (fun r => sqlite.check_ok r = true) rows.

(** [completed_at] is present exactly when the status is completed. *)
Definition completion_consistent (t : Task) : Prop :=
  CompletedAt t <> None <-> Status t = TaskStatusCompleted.

(** The conjunction of the criteria that are set in a filter. *)
Definition matches (f : TaskFilter) (t : Task) : bool :=
  match FilterStatus f with Some s => String.eqb (Status t) s | None => true end
  && match FilterPriority f with Some p => String.eqb (Priority t) p | None => true end
  && match FromDate f with Some d => d <=? CreatedAt t | None => true end
  && match ToDate f with Some d => CreatedAt t <=? d | None => true end.

(** The clock never shows the same or an earlier instant twice. *)
Definition clock_advances (w : World) : Prop :=
  forall n m, (n < m)%nat -> clock w n < clock w m.

(** The clock never runs backwards. *)
Definition clock_monotone (w : World) : Prop :=
  forall n m, (n <= m)%nat -> clock w n <= clock w m.

(** Every timestamp of the row is a reading the clock has already given. *)
Definition stamped (w : World) (t : Task) : Prop :=
  (exists k, (k < clock_reads w)%nat /\ CreatedAt t = clock w k) /\
  (exists k, (k < clock_reads w)%nat /\ UpdatedAt t = clock w k).

(** The calls of the service contract, and the worlds they lead to from
    an empty table. *)
Inductive Op : Type :=
| OpCreateTask (title description : string) (priority : TaskPriority)
| OpGetTask (id : string)
| OpListTasks (filter : TaskFilter)
| OpUpdateTask (id title description : string) (priority : TaskPriority)
| OpCompleteTask (id : string)
| OpDeleteTask (id : string).

Definition perform (op : Op) (w : World) : World :=
  match op with
  | OpCreateTask t d p => snd (service.CreateTask t d p w)
  | OpGetTask id => snd (service.GetTask id w)
  | OpListTasks f => snd (service.ListTasks f w)
  | OpUpdateTask id t d p => snd (service.UpdateTask id t d p w)
  | OpCompleteTask id => snd (service.CompleteTask id w)
  | OpDeleteTask id => snd (service.DeleteTask id w)
  end.

Inductive reachable : World -> Prop :=
| reachable_fresh : forall w, tasks w = [] -> reachable w
| reachable_step : forall w op, reachable w -> reachable (perform op w).

(** The rows after UPDATE ... WHERE id = [ID new]. *)
Definition rewritten (new : Task) (rows : list Task) : list Task :=
  map (fun r => if sqlite.has_id (ID new) r then sqlite.set_columns new r else r) rows.

(** What holds of every world the service can reach: the table respects
    its constraints, every row is consistent about completion, and every
    timestamp in it was read from the clock. *)
Definition world_ok (w : World) : Prop :=
  table_ok (tasks w)
  /\ Forall completion_consistent (tasks w)
  /\ Forall (stamped w) (tasks w).

(** The catalogue and the ledger: what the migration procedure writes. *)
Definition catalogue (w : World)
  : (list sqlite.TableDef * list sqlite.IndexDef) * list string :=
  ((tables w, indexes w), ledger w).

(** A computation that leaves the catalogue and the ledger alone. *)
Definition keeps_catalogue {A} (m : State A) : Prop :=
  forall w, catalogue (snd (m w)) = catalogue w.

(** A sequence of service calls, first to last. *)
Definition perform_all (ops : list Op) (w : World) : World :=
  fold_left (fun w op => perform op w) ops w.

(** The database as a transaction sees it. *)
Definition database (w : World) : Snapshot := snapshot w.

(** The events a run of the migration procedure adds when every version
    is already in the ledger. *)
Definition noop_events : list Event :=
  [Sent CreateLedger; Sent SelectLedger] ++
  map (fun _ => Logged LevelDebug "Migration already applied")
      (storage.sort_Strings (map fst storage.migrations)).

(** The events by which a migration is applied: a script executed, a
    version recorded, a transaction opened or closed. *)
Definition applies_migration (e : Event) : bool :=
  match e with
  | Sent (Script _) | Sent (RecordVersion _) | TxBegin | TxCommit | TxRollback => true
  | _ => false
  end.

Definition record_all (es : list Event) (w : World) : World :=
  fold_left (fun w e => record e w) es w.

(** The ledger table is there and has its [version] column. *)
Definition ledger_ready (w : World) : Prop :=
  exists cols,
    sqlite.find_table "migrations" (tables w) = Some cols
    /\ sqlite.has_column "version" cols = true.

(** Every shipped version is in the ledger. *)
Definition migrated (w : World) : Prop :=
  ledger_ready w
  /\ forall v, In v (storage.sort_Strings (map fst storage.migrations)) -> In v (ledger w).

(** [n] runs of the migration procedure in a row; the results of all of
    them, and the final world. *)
Fixpoint rerun (n : nat) : State (list (option error)) :=
  match n with
  | O => ret []
  | S n' =>
      r <- storage.runMigrations ;;
      rs <- rerun n' ;;
      ret (r :: rs)
  end.

(** Concrete worlds for the examples: an empty database file, a clock
    that ticks at every reading, identifiers a, b, c, ... *)
Definition demo_ids (n : nat) : string := nth n ["a"; "b"; "c"; "d"] "z".

Definition demo_world : World :=
  mkWorld [] [] [] [] [] (fun n => 1000 + Z.of_nat n) 0 demo_ids 0.

Definition demo_task : Task :=
  {| ID := "a"; Title := "Buy milk"; Description := "2 litres";
     Status := "pending"; Priority := "low";
     CreatedAt := 1000; UpdatedAt := 1001; CompletedAt := None |}.

(** [demo_world] after one [CreateTask]. *)
Definition demo_world_1 : World :=
  perform (OpCreateTask "Buy milk" "2 litres" TaskPriorityLow) demo_world.

(** [demo_world_1] after completing the task. *)
Definition demo_world_2 : World :=
  perform (OpCompleteTask "a") demo_world_1.

(** ** Further notions *)

(** The timestamps of a row are readings of the clock taken in this
    order: [created_at], then [completed_at] if there is one, then (or
    at the same reading) [updated_at]. *)
Definition stamps_ordered (w : World) (t : Task) : Prop :=
  exists k j,
    (k < j)%nat /\ (j < clock_reads w)%nat
    /\ CreatedAt t = clock w k /\ UpdatedAt t = clock w j
    /\ match CompletedAt t with
       | Some c => exists m, (k < m)%nat /\ (m <= j)%nat /\ c = clock w m
       | None => True
       end.

(** Every row passes [Validate] and has its timestamps in order. *)
Definition history_ok (w : World) : Prop :=
  Forall (fun t => Validate t = None) (tasks w)
  /\ Forall (stamps_ordered w) (tasks w).

(** The object a DDL statement is to create is in the catalogue. *)
Definition installed (s : sqlite.DDL) (ts : list sqlite.TableDef)
  (ixs : list sqlite.IndexDef) : Prop :=
  match s with
  | sqlite.CREATE_TABLE_IF_NOT_EXISTS n _ => sqlite.has_name n ts = true
  | sqlite.CREATE_INDEX_IF_NOT_EXISTS n _ _ => sqlite.has_name n ixs = true
  end.

(** The events of a run of the migration procedure that fails, by the
    step that fails. *)
Definition failed_run_events : list (list Event) :=
  [ [Sent CreateLedger];
    [Sent CreateLedger; Sent SelectLedger];
    [Sent CreateLedger; Sent SelectLedger; Logged LevelInfo "Applying migration";
     TxBegin; Sent (Script (storage.lookup "001_create_tasks_table" storage.migrations));
     TxRollback];
    [Sent CreateLedger; Sent SelectLedger; Logged LevelInfo "Applying migration";
     TxBegin; Sent (Script (storage.lookup "001_create_tasks_table" storage.migrations));
     Sent (RecordVersion "001_create_tasks_table"); TxRollback] ].

(** A database in which a migration fails half way: a [tasks] table of
    an older shape, without the [priority] column. *)
Definition old_shape_world : World :=
  mkWorld [("tasks", ["id"; "title"; "status"])] [] [] [] []
          (fun n => 1000 + Z.of_nat n) 0 demo_ids 0.

(** An environment for the examples: nothing set but [DB_PATH] and
    [LOG_LEVEL], a configuration file that sets other values for both. *)
Definition demo_os : config.OS :=
  config.mkOS
    (fun key => if String.eqb key "DB_PATH" then "/tmp/env-override.db"
                else if String.eqb key "LOG_LEVEL" then "debug"
                else if String.eqb key "CONFIG_FILE" then "/etc/task.yaml"
                else "")
    (Ok "/home/user")
    (fun path => if String.eqb path "/etc/task.yaml" then config.Content "yaml" else config.NotExist)
    (fun _ c => (None,
                 config.mkConfig
                   (config.mkDatabaseConfig "sqlite" "/tmp/config-file.db"
                      (config.Host (config.Database c)) (config.Port (config.Database c))
                      (config.Name (config.Database c)) (config.User (config.Database c))
                      (config.Password (config.Database c))
                      (config.SSLMode (config.Database c)))
                   (config.mkLoggingConfig "info" (config.Format (config.Logging c)))))
    (fun _ => None)
    (fun parts => String.concat "/" parts).

(** A world whose clock shows the same instant at every reading, and
    that world after one [CreateTask]. *)
Definition frozen_world : World :=
  mkWorld [] [] [] [] [] (fun _ => 1000) 0 demo_ids 0.

Definition frozen_world_1 : World :=
  perform (OpCreateTask "Buy milk" "2 litres" TaskPriorityLow) frozen_world.

(** An environment with nothing set and no file, and one that names a
    configuration file that is not there. *)
Definition bare_os : config.OS :=
  config.mkOS (fun _ => "") (Ok "/home/user") (fun _ => config.NotExist)
    (fun _ c => (None, c)) (fun _ => None) (fun parts => String.concat "/" parts).

Definition missing_file_os : config.OS :=
  config.mkOS (fun key => if String.eqb key "CONFIG_FILE" then "/nonexistent/config.yaml"
                          else "")
    (Ok "/home/user") (fun _ => config.NotExist)
    (fun _ c => (None, c)) (fun _ => None) (fun parts => String.concat "/" parts).

(** * Properties *)

(** ** Facts about the engine *)

Lemma has_id_true (id : string) (r : Task) : sqlite.has_id id r = true <-> ID r = id.
Proof. unfold sqlite.has_id. apply String.eqb_eq. Qed.

Lemma select_by_id_some (id : string) (rows : list Task) (t : Task) :
  sqlite.select_by_id id rows = Some t -> In t rows /\ ID t = id.
Proof.
  unfold sqlite.select_by_id. intros H. apply find_some in H.
  destruct H as [Hin Hid]. split; [exact Hin | now apply has_id_true].
Qed.

Lemma rows_matching_zero (id : string) (rows : list Task) :
  sqlite.rows_matching id rows = 0%nat <-> sqlite.select_by_id id rows = None.
Proof.
  unfold sqlite.rows_matching, sqlite.select_by_id.
  induction rows as [|r rows IH]; simpl.
  - tauto.
  - destruct (sqlite.has_id id r); simpl.
    + split; discriminate.
    + exact IH.
Qed.

Lemma existsb_has_id (id : string) (rows : list Task) :
  existsb (sqlite.has_id id) rows = false <-> sqlite.select_by_id id rows = None.
Proof.
  unfold sqlite.select_by_id.
  induction rows as [|r rows IH]; simpl.
  - tauto.
  - destruct (sqlite.has_id id r); simpl.
    + split; discriminate.
    + exact IH.
Qed.

Lemma existsb_has_id_In (id : string) (rows : list Task) :
  existsb (sqlite.has_id id) rows = true <-> In id (map ID rows).
Proof.
  rewrite existsb_exists, in_map_iff. split.
  - intros [r [Hin Hid]]. exists r. split; [now apply has_id_true | exact Hin].
  - intros [r [Hid Hin]]. exists r. split; [exact Hin | now apply has_id_true].
Qed.

Lemma select_by_id_app_new (id : string) (rows : list Task) (t : Task) :
  sqlite.select_by_id id rows = None ->
  sqlite.select_by_id id (rows ++ [t]) = if sqlite.has_id id t then Some t else None.
Proof.
  unfold sqlite.select_by_id.
  induction rows as [|r rows IH]; simpl; intros H.
  - reflexivity.
  - destruct (sqlite.has_id id r); [discriminate | now apply IH].
Qed.

(** Rewriting the matched rows: the row found under the written id is the
    rewritten one, rows under other ids are untouched. *)
Lemma select_by_id_rewritten (new : Task) (rows : list Task) (id : string) :
  sqlite.select_by_id id
    (map (fun r => if sqlite.has_id (ID new) r then sqlite.set_columns new r else r) rows)
  = match sqlite.select_by_id id rows with
    | Some r => Some (if sqlite.has_id (ID new) r then sqlite.set_columns new r else r)
    | None => None
    end.
Proof.
  unfold sqlite.select_by_id.
  induction rows as [|x rows IH]; simpl.
  - reflexivity.
  - destruct (sqlite.has_id (ID new) x) eqn:Hx.
    + unfold sqlite.has_id at 1. simpl. fold (sqlite.has_id id x).
      destruct (sqlite.has_id id x); [now rewrite Hx | exact IH].
    + destruct (sqlite.has_id id x); [now rewrite Hx | exact IH].
Qed.

Lemma rewritten_unmatched (new : Task) (rows : list Task) :
  sqlite.rows_matching (ID new) rows = 0%nat ->
  map (fun r => if sqlite.has_id (ID new) r then sqlite.set_columns new r else r) rows = rows.
Proof.
  unfold sqlite.rows_matching.
  induction rows as [|x rows IH]; simpl; intros H.
  - reflexivity.
  - destruct (sqlite.has_id (ID new) x); simpl in H; [discriminate|].
    now rewrite IH.
Qed.

Lemma rewritten_check (new : Task) (rows : list Task) :
  sqlite.check_ok new = true ->
  forallb sqlite.check_ok
    (filter (sqlite.has_id (ID new))
       (map (fun r => if sqlite.has_id (ID new) r then sqlite.set_columns new r else r) rows))
  = true.
Proof.
  intros Hc. apply forallb_forall. intros x Hx.
  apply filter_In in Hx. destruct Hx as [Hx Hid].
  apply in_map_iff in Hx. destruct Hx as [r [Hr _]].
  destruct (sqlite.has_id (ID new) r) eqn:E; subst x.
  - exact Hc.
  - congruence.
Qed.

Lemma update_ok (new : Task) (rows : list Task) :
  sqlite.check_ok new = true ->
  sqlite.update new rows =
    inr (map (fun r => if sqlite.has_id (ID new) r then sqlite.set_columns new r else r) rows,
         sqlite.rows_matching (ID new) rows).
Proof.
  intros Hc. unfold sqlite.update. now rewrite rewritten_check.
Qed.

Lemma update_unmatched (new : Task) (rows : list Task) :
  sqlite.rows_matching (ID new) rows = 0%nat ->
  sqlite.update new rows = inr (rows, 0%nat).
Proof.
  intros H. unfold sqlite.update. rewrite (rewritten_unmatched _ _ H), H.
  unfold sqlite.rows_matching in H. apply length_zero_iff_nil in H.
  now rewrite H.
Qed.

Lemma update_result (new : Task) (rows rows' : list Task) (n : nat) :
  sqlite.update new rows = inr (rows', n) ->
  rows' = map (fun r => if sqlite.has_id (ID new) r then sqlite.set_columns new r else r) rows
  /\ n = sqlite.rows_matching (ID new) rows
  /\ (n <> 0%nat -> sqlite.check_ok new = true).
Proof.
  unfold sqlite.update.
  destruct (forallb _ _) eqn:F; [|discriminate].
  intros H. injection H as <- <-. repeat split.
  intros Hn. rewrite rows_matching_zero in Hn.
  destruct (sqlite.select_by_id (ID new) rows) as [r|] eqn:S; [|congruence].
  apply select_by_id_some in S. destruct S as [Hin Hid].
  rewrite forallb_forall in F.
  apply (F (sqlite.set_columns new r)).
  apply filter_In. split.
  - apply in_map_iff. exists r. split; [|exact Hin].
    now rewrite (proj2 (has_id_true _ _) Hid).
  - apply has_id_true. simpl. exact Hid.
Qed.

(** ** What the repository calls do to the world *)

Lemma GetByID_run (id : string) (w : World) :
  repository.GetByID id w =
    (match sqlite.select_by_id id (tasks w) with
     | Some t => Ok t
     | None => Err ErrTaskNotFound
     end,
     record (Sent (SelectByID id)) w).
Proof.
  unfold repository.GetByID, bind, sql.QueryRowContext_SelectByID, ret. simpl.
  now destruct (sqlite.select_by_id id (tasks w)).
Qed.

Lemma Create_run (task : Task) (w : World) :
  repository.Create task w =
    match sqlite.insert task (tasks w) with
    | inl e =>
        (Some (fmt_Errorf "failed to create task" (driver_error e)),
         record (Logged LevelError "Failed to create task")
                (record (Sent (InsertTask task)) w))
    | inr rows =>
        (None,
         record (Logged LevelInfo "Task created")
                (set_tasks rows (record (Sent (InsertTask task)) w)))
    end.
Proof.
  unfold repository.Create, bind, sql.ExecContext_InsertTask, ret, logger. simpl.
  now destruct (sqlite.insert task (tasks w)).
Qed.

Lemma Update_write_run (task : Task) (w : World) :
  repository.Update_write task w =
    match sqlite.update task (tasks w) with
    | inl e =>
        (Some (fmt_Errorf "failed to update task" (driver_error e)),
         record (Logged LevelError "Failed to update task")
                (record (Sent (UpdateTaskRow task)) w))
    | inr (rows, n) =>
        if Nat.eqb n 0 then
          (Some ErrTaskNotFound, set_tasks rows (record (Sent (UpdateTaskRow task)) w))
        else
          (None,
           record (Logged LevelInfo "Task updated")
                  (set_tasks rows (record (Sent (UpdateTaskRow task)) w)))
    end.
Proof.
  unfold repository.Update_write, bind, sql.ExecContext_UpdateTaskRow, ret, logger. simpl.
  destruct (sqlite.update task (tasks w)) as [e|[rows n]]; [reflexivity|].
  now destruct (Nat.eqb n 0).
Qed.

Lemma Update_run (task : Task) (w : World) :
  repository.Update task w =
    match sqlite.select_by_id (ID task) (tasks w) with
    | None => (Some ErrTaskNotFound, record (Sent (SelectByID (ID task))) w)
    | Some _ => repository.Update_write task (record (Sent (SelectByID (ID task))) w)
    end.
Proof.
  unfold repository.Update, bind. rewrite GetByID_run.
  now destruct (sqlite.select_by_id (ID task) (tasks w)).
Qed.

Lemma Delete_run (id : string) (w : World) :
  repository.Delete id w =
    let w1 := set_tasks (fst (sqlite.delete id (tasks w))) (record (Sent (DeleteByID id)) w) in
    if Nat.eqb (sqlite.rows_matching id (tasks w)) 0 then (Some ErrTaskNotFound, w1)
    else (None, record (Logged LevelInfo "Task deleted") w1).
Proof.
  unfold repository.Delete, bind, sql.ExecContext_DeleteByID, ret, logger. simpl.
  now destruct (Nat.eqb (sqlite.rows_matching id (tasks w)) 0).
Qed.

Lemma delete_unmatched (id : string) (rows : list Task) :
  sqlite.rows_matching id rows = 0%nat ->
  filter (fun r => negb (sqlite.has_id id r)) rows = rows.
Proof.
  unfold sqlite.rows_matching.
  induction rows as [|x rows IH]; simpl; intros H.
  - reflexivity.
  - destruct (sqlite.has_id id x); simpl in *; [discriminate|].
    now rewrite IH.
Qed.

(** ** C1: creating under an id that is already taken *)

(** C1.  When the id of the task is the id of a row already in the
    table, [Create] fails and leaves the table as it was; the error it
    returns is the driver's primary-key error wrapped by [fmt.Errorf],
    and [ErrDuplicateTask] is nowhere in its chain: the violation is
    reported as a generic storage error, not as the duplicate error. *)
Theorem Create_existing_id_generic_error (task : Task) (w : World) :
  existsb (sqlite.has_id (ID task)) (tasks w) = true ->
  sqlite.check_ok task = true ->
  exists w',
    repository.Create task w =
      (Some (fmt_Errorf "failed to create task" (driver_error ConstraintPrimaryKey)), w')
    /\ tasks w' = tasks w
    /\ errors_Is (fmt_Errorf "failed to create task" (driver_error ConstraintPrimaryKey))
                 ErrDuplicateTask = false.
Proof.
  intros Hdup Hck. rewrite Create_run. unfold sqlite.insert.
  rewrite Hck, Hdup. simpl.
  eexists. split; [reflexivity|]. split; reflexivity.
Qed.

Lemma Create_existing_id_generic_error_witness :
  exists w',
    repository.Create demo_task demo_world_1 =
      (Some (fmt_Errorf "failed to create task" (driver_error ConstraintPrimaryKey)), w')
    /\ tasks w' = tasks demo_world_1
    /\ errors_Is (fmt_Errorf "failed to create task" (driver_error ConstraintPrimaryKey))
                 ErrDuplicateTask = false.
Proof.
  apply (Create_existing_id_generic_error demo_task demo_world_1); reflexivity.
Defined.

(** ** C8: not found on update and delete *)

(** C8.  [Delete] returns [ErrTaskNotFound] itself exactly when the
    DELETE affects no row, which is when no row has the id; the write of
    [Update] returns it exactly when the UPDATE affects no row, whatever
    happened between the existence check and the write; and [Update] as a
    whole returns it exactly when no row has the id.  In each of these
    cases the table is left as it was, and when a row has the id,
    [Delete] succeeds. *)
Theorem NotFound_iff_no_row_affected (w : World) :
  (forall id,
      (fst (repository.Delete id w) = Some ErrTaskNotFound
       <-> sqlite.rows_matching id (tasks w) = 0%nat)
      /\ (sqlite.rows_matching id (tasks w) = 0%nat
          <-> sqlite.select_by_id id (tasks w) = None)
      /\ (sqlite.rows_matching id (tasks w) = 0%nat ->
          tasks (snd (repository.Delete id w)) = tasks w)
      /\ (sqlite.rows_matching id (tasks w) <> 0%nat ->
          fst (repository.Delete id w) = None
          /\ sqlite.select_by_id id (tasks (snd (repository.Delete id w))) = None))
  /\
  (forall task,
      (fst (repository.Update_write task w) = Some ErrTaskNotFound
       <-> sqlite.rows_matching (ID task) (tasks w) = 0%nat)
      /\ (fst (repository.Update task w) = Some ErrTaskNotFound
          <-> sqlite.rows_matching (ID task) (tasks w) = 0%nat)
      /\ (sqlite.rows_matching (ID task) (tasks w) = 0%nat ->
          tasks (snd (repository.Update_write task w)) = tasks w
          /\ tasks (snd (repository.Update task w)) = tasks w)).
Proof.
  split.
  - intros id. rewrite Delete_run. cbv zeta.
    pose proof (rows_matching_zero id (tasks w)) as Hz.
    destruct (Nat.eqb (sqlite.rows_matching id (tasks w)) 0) eqn:E.
    + apply Nat.eqb_eq in E.
      split; [tauto|]. split; [exact Hz|]. split.
      * intros _. simpl. now apply delete_unmatched.
      * intros Hn. contradiction.
    + apply Nat.eqb_neq in E.
      split; [split; [discriminate | contradiction]|].
      split; [exact Hz|]. split; [contradiction|].
      intros _. split; [reflexivity|].
      simpl. unfold sqlite.select_by_id.
      destruct (find (sqlite.has_id id) _) as [r|] eqn:F; [|reflexivity].
      apply find_some in F. destruct F as [Hin Hid].
      apply filter_In in Hin. destruct Hin as [_ Hn].
      rewrite Hid in Hn. discriminate.
  - intros task.
    assert (Hw : forall w0 : World,
               tasks w0 = tasks w ->
               (fst (repository.Update_write task w0) = Some ErrTaskNotFound
                <-> sqlite.rows_matching (ID task) (tasks w) = 0%nat)
               /\ (sqlite.rows_matching (ID task) (tasks w) = 0%nat ->
                   tasks (snd (repository.Update_write task w0)) = tasks w)).
    { intros w0 Hw0. rewrite Update_write_run, Hw0.
      destruct (sqlite.update task (tasks w)) as [e|[rows n]] eqn:U.
      - split.
        + split; [discriminate|]. intros Hz.
          rewrite (update_unmatched _ _ Hz) in U. discriminate.
        + intros _. simpl. exact Hw0.
      - apply update_result in U. destruct U as [Hrows [Hn _]].
        destruct (Nat.eqb n 0) eqn:E.
        + apply Nat.eqb_eq in E. split.
          * split; [congruence | reflexivity].
          * intros Hz. simpl. subst rows. now apply rewritten_unmatched.
        + apply Nat.eqb_neq in E. split.
          * split; [discriminate | congruence].
          * congruence. }
    destruct (Hw w eq_refl) as [Hw1 Hw2].
    split; [exact Hw1|]. split.
    + rewrite Update_run.
      destruct (sqlite.select_by_id (ID task) (tasks w)) as [r|] eqn:S.
      * destruct (Hw (record (Sent (SelectByID (ID task))) w) eq_refl) as [H1 _].
        exact H1.
      * simpl. split; [intros _; now apply rows_matching_zero | reflexivity].
    + intros Hz. split; [now apply Hw2|].
      rewrite Update_run.
      destruct (sqlite.select_by_id (ID task) (tasks w)) as [r|] eqn:S.
      * destruct (Hw (record (Sent (SelectByID (ID task))) w) eq_refl) as [_ H2].
        now apply H2.
      * reflexivity.
Qed.

(** ** C9: the empty id *)

(** C9.  On the empty id, [GetTask], [UpdateTask], [CompleteTask] and
    [DeleteTask] return [ErrInvalidTaskID] and the world is the one they
    started in: no statement was sent to the database, nothing was
    logged, no clock reading was taken, no row changed. *)
Theorem empty_id_rejected_locally (w : World) :
  service.GetTask "" w = (Err ErrInvalidTaskID, w)
  /\ (forall title description priority,
        service.UpdateTask "" title description priority w = (Err ErrInvalidTaskID, w))
  /\ service.CompleteTask "" w = (Err ErrInvalidTaskID, w)
  /\ service.DeleteTask "" w = (Some ErrInvalidTaskID, w).
Proof. repeat split. Qed.

(** ** The query [List] builds *)

Lemma build_query_where (f : TaskFilter) (r : Task) :
  sqlite.where_holds (fst (repository.build_query f)) (snd (repository.build_query f)) r
  = Some (matches f r).
Proof.
  destruct f as [[s|] [p|] [d|] [e|]];
    unfold repository.build_query, repository.add_pred, matches; simpl;
    f_equal;
    repeat match goal with
      | |- context [String.eqb ?a ?b] => destruct (String.eqb a b)
      | |- context [?a <=? ?b] => destruct (a <=? b)
      end; reflexivity.
Qed.

Lemma build_query_arity (f : TaskFilter) :
  List.length (fst (repository.build_query f)) = List.length (snd (repository.build_query f)).
Proof. destruct f as [[s|] [p|] [d|] [e|]]; reflexivity. Qed.

Lemma select_where_filter (ps : list sqlite.Pred) (args : list sqlite.Arg)
  (keep : Task -> bool) (rows : list Task) :
  List.length ps = List.length args ->
  (forall r, sqlite.where_holds ps args r = Some (keep r)) ->
  sqlite.select_where ps args rows = Some (filter keep rows).
Proof.
  intros Hlen Hk. induction rows as [|r rows IH]; simpl.
  - now rewrite Hlen, Nat.eqb_refl.
  - now rewrite Hk, IH.
Qed.

Lemma List_run (f : TaskFilter) (w : World) :
  repository.List f w =
    (Ok (sqlite.order_by_created_at_desc (filter (matches f) (tasks w))),
     record (Sent (SelectWhere (fst (repository.build_query f))
                               (snd (repository.build_query f)))) w).
Proof.
  unfold repository.List.
  destruct (repository.build_query f) as [ps args] eqn:Q.
  unfold bind, sql.QueryContext_SelectWhere, ret. simpl.
  rewrite (select_where_filter ps args (matches f)).
  - reflexivity.
  - pose proof (build_query_arity f) as H. now rewrite Q in H.
  - intros r. pose proof (build_query_where f r) as H. now rewrite Q in H.
Qed.

(** ** Validation *)

Lemma Validate_None (t : Task) :
  Validate t = None <->
  Title t <> ""
  /\ (Status t = TaskStatusPending \/ Status t = TaskStatusCompleted)
  /\ (Priority t = TaskPriorityLow \/ Priority t = TaskPriorityMedium
      \/ Priority t = TaskPriorityHigh).
Proof.
  unfold Validate.
  destruct (String.eqb_spec (Title t) "") as [Ht|Ht].
  { split; [discriminate | tauto]. }
  destruct (String.eqb_spec (Status t) TaskStatusPending) as [Hp|Hp];
    destruct (String.eqb_spec (Status t) TaskStatusCompleted) as [Hc|Hc];
    destruct (String.eqb_spec (Priority t) TaskPriorityLow) as [Hl|Hl];
    destruct (String.eqb_spec (Priority t) TaskPriorityMedium) as [Hm|Hm];
    destruct (String.eqb_spec (Priority t) TaskPriorityHigh) as [Hh|Hh];
    simpl; split; try discriminate; try tauto.
Qed.

Lemma Validate_check_ok (t : Task) : Validate t = None -> sqlite.check_ok t = true.
Proof.
  intros H. apply Validate_None in H. destruct H as [_ [Hs Hp]].
  unfold sqlite.check_ok.
  unfold TaskStatusPending, TaskStatusCompleted in Hs.
  unfold TaskPriorityLow, TaskPriorityMedium, TaskPriorityHigh in Hp.
  destruct Hs as [-> | ->]; destruct Hp as [-> | [-> | ->]]; reflexivity.
Qed.

(** ** C2: creating a task *)

Lemma CreateTask_run (title description : string) (priority : TaskPriority) (w : World) :
  let task := {| ID := uuid w (uuid_draws w); Title := title; Description := description;
                 Status := TaskStatusPending; Priority := priority;
                 CreatedAt := clock w (clock_reads w);
                 UpdatedAt := clock w (S (clock_reads w));
                 CompletedAt := None |} in
  Validate task = None ->
  sqlite.select_by_id (ID task) (tasks w) = None ->
  exists w',
    service.CreateTask title description priority w = (Ok task, w')
    /\ tasks w' = tasks w ++ [task]
    /\ clock w' = clock w
    /\ clock_reads w' = S (S (clock_reads w)).
Proof.
  intros task Hv Hfresh.
  unfold service.CreateTask, bind, uuid_New, time_Now. simpl.
  fold task. rewrite Hv. rewrite Create_run. simpl.
  unfold sqlite.insert.
  rewrite (Validate_check_ok _ Hv). simpl.
  apply existsb_has_id in Hfresh. simpl in Hfresh. rewrite Hfresh.
  unfold ret, logger. simpl.
  eexists. split; [reflexivity|]. repeat split.
Qed.

(** C2, as the code has it.  For a non-empty title, a priority among low,
    medium and high, and a generated id that no row has yet, [CreateTask]
    returns a task with that title, description and priority, status
    pending and no [completed_at]; [created_at] is the first and
    [updated_at] the second of two successive readings of the clock, so
    [created_at] is not later than [updated_at] when the clock does not
    run backwards.  The task is the row then found under its id, and
    [GetTask] returns it. *)
Theorem CreateTask_valid_input (title description : string) (priority : TaskPriority)
  (w : World) :
  title <> "" ->
  In priority [TaskPriorityLow; TaskPriorityMedium; TaskPriorityHigh] ->
  sqlite.select_by_id (uuid w (uuid_draws w)) (tasks w) = None ->
  exists t w',
    service.CreateTask title description priority w = (Ok t, w')
    /\ Title t = title /\ Description t = description /\ Priority t = priority
    /\ Status t = TaskStatusPending
    /\ CompletedAt t = None
    /\ ID t = uuid w (uuid_draws w)
    /\ CreatedAt t = clock w (clock_reads w)
    /\ UpdatedAt t = clock w (S (clock_reads w))
    /\ (clock_monotone w -> CreatedAt t <= UpdatedAt t)
    /\ tasks w' = tasks w ++ [t]
    /\ sqlite.select_by_id (ID t) (tasks w') = Some t
    /\ (ID t <> "" -> fst (service.GetTask (ID t) w') = Ok t).
Proof.
  intros Ht Hp Hfresh.
  destruct (CreateTask_run title description priority w) as [w' [Hrun [Htasks _]]].
  - apply Validate_None. simpl. split; [exact Ht|]. split; [now left|].
    simpl in Hp. intuition.
  - exact Hfresh.
  - eexists. exists w'. split; [exact Hrun|]. simpl.
    assert (Hsel : sqlite.select_by_id (uuid w (uuid_draws w)) (tasks w') =
                   Some {| ID := uuid w (uuid_draws w); Title := title;
                           Description := description; Status := TaskStatusPending;
                           Priority := priority;
                           CreatedAt := clock w (clock_reads w);
                           UpdatedAt := clock w (S (clock_reads w));
                           CompletedAt := None |}).
    { rewrite Htasks, (select_by_id_app_new _ _ _ Hfresh).
      unfold sqlite.has_id. simpl. now rewrite String.eqb_refl. }
    repeat split; try assumption.
    + intros Hm. apply Hm. lia.
    + intros Hid. unfold service.GetTask.
      destruct (String.eqb_spec (uuid w (uuid_draws w)) "") as [E|E]; [contradiction|].
      unfold bind. rewrite GetByID_run, Hsel. reflexivity.
Qed.

Lemma CreateTask_valid_input_witness :
  exists t w',
    service.CreateTask "Buy milk" "" TaskPriorityLow demo_world = (Ok t, w')
    /\ Title t = "Buy milk" /\ Description t = "" /\ Priority t = TaskPriorityLow
    /\ Status t = TaskStatusPending
    /\ CompletedAt t = None
    /\ ID t = uuid demo_world (uuid_draws demo_world)
    /\ CreatedAt t = clock demo_world (clock_reads demo_world)
    /\ UpdatedAt t = clock demo_world (S (clock_reads demo_world))
    /\ (clock_monotone demo_world -> CreatedAt t <= UpdatedAt t)
    /\ tasks w' = tasks demo_world ++ [t]
    /\ sqlite.select_by_id (ID t) (tasks w') = Some t
    /\ (ID t <> "" -> fst (service.GetTask (ID t) w') = Ok t).
Proof.
  apply (CreateTask_valid_input "Buy milk" "" TaskPriorityLow demo_world).
  - discriminate.
  - simpl. now left.
  - reflexivity.
Defined.

(** C2, as stated, fails: with a clock that moves between the two
    readings, the task created for a valid input has a [created_at]
    different from its [updated_at]. *)
Lemma CreateTask_created_at_differs :
  ~ (forall (title description : string) (priority : TaskPriority) (w w' : World) (t : Task),
        title <> "" ->
        In priority [TaskPriorityLow; TaskPriorityMedium; TaskPriorityHigh] ->
        service.CreateTask title description priority w = (Ok t, w') ->
        Title t = title /\ Priority t = priority /\ Status t = TaskStatusPending
        /\ CompletedAt t = None /\ CreatedAt t = UpdatedAt t).
Proof.
  intros H.
  assert (Hrun : service.CreateTask "Buy milk" "" TaskPriorityLow demo_world
                 = (Ok {| ID := "a"; Title := "Buy milk"; Description := "";
                          Status := "pending"; Priority := "low";
                          CreatedAt := 1000; UpdatedAt := 1001;
                          CompletedAt := None |},
                    snd (service.CreateTask "Buy milk" "" TaskPriorityLow demo_world))).
  { vm_compute. reflexivity. }
  assert (Hne : "Buy milk" <> "") by discriminate.
  assert (Hin : In TaskPriorityLow [TaskPriorityLow; TaskPriorityMedium; TaskPriorityHigh])
    by (simpl; now left).
  destruct (H _ _ _ _ _ _ Hne Hin Hrun) as [_ [_ [_ [_ Heq]]]].
  simpl in Heq. discriminate.
Qed.

(** ** What [UpdateTask] and [CompleteTask] do to a task that exists *)

Lemma select_rows_matching (id : string) (rows : list Task) (t : Task) :
  sqlite.select_by_id id rows = Some t ->
  Nat.eqb (sqlite.rows_matching id rows) 0 = false.
Proof.
  intros H. apply Nat.eqb_neq. rewrite rows_matching_zero. congruence.
Qed.

Lemma Update_found (new t : Task) (w : World) :
  sqlite.select_by_id (ID new) (tasks w) = Some t ->
  sqlite.check_ok new = true ->
  repository.Update new w =
    (None,
     record (Logged LevelInfo "Task updated")
       (set_tasks (rewritten new (tasks w))
          (record (Sent (UpdateTaskRow new)) (record (Sent (SelectByID (ID new))) w)))).
Proof.
  intros Hsel Hck. rewrite Update_run, Hsel, Update_write_run.
  change (tasks (record (Sent (SelectByID (ID new))) w)) with (tasks w).
  rewrite (update_ok _ _ Hck), (select_rows_matching _ _ _ Hsel). reflexivity.
Qed.

Lemma Update_found_check_fails (new t : Task) (w : World) :
  sqlite.select_by_id (ID new) (tasks w) = Some t ->
  sqlite.check_ok new = false ->
  repository.Update new w =
    (Some (fmt_Errorf "failed to update task" (driver_error ConstraintCheck)),
     record (Logged LevelError "Failed to update task")
       (record (Sent (UpdateTaskRow new)) (record (Sent (SelectByID (ID new))) w))).
Proof.
  intros Hsel Hck. rewrite Update_run, Hsel, Update_write_run.
  change (tasks (record (Sent (SelectByID (ID new))) w)) with (tasks w).
  destruct (sqlite.update new (tasks w)) as [e|[rows n]] eqn:U.
  - unfold sqlite.update in U. destruct (forallb _ _); [discriminate|].
    injection U as <-. reflexivity.
  - apply update_result in U. destruct U as [_ [Hn Hc]].
    pose proof (select_rows_matching _ _ _ Hsel) as Hz. apply Nat.eqb_neq in Hz.
    rewrite <- Hn in Hz. apply Hc in Hz. congruence.
Qed.

Lemma UpdateTask_found (id title description : string) (priority : TaskPriority)
  (w : World) (t : Task) :
  id <> "" ->
  sqlite.select_by_id id (tasks w) = Some t ->
  let t' := service.merge t title description priority (clock w (clock_reads w)) in
  exists w',
    clock w' = clock w /\ clock_reads w' = S (clock_reads w) /\
    match Validate t' with
    | Some err =>
        service.UpdateTask id title description priority w
          = (Err (fmt_Errorf "task validation failed" err), w')
        /\ tasks w' = tasks w
    | None =>
        service.UpdateTask id title description priority w = (Ok t', w')
        /\ tasks w' = rewritten t' (tasks w)
    end.
Proof.
  intros Hid Hsel t'.
  destruct (select_by_id_some _ _ _ Hsel) as [_ Hidt].
  assert (Hsel' : sqlite.select_by_id (ID t') (tasks w) = Some t).
  { simpl. now rewrite Hidt. }
  assert (Hrun : service.UpdateTask id title description priority w =
                 match Validate t' with
                 | Some err =>
                     (Err (fmt_Errorf "task validation failed" err),
                      record (Logged LevelWarn "Task validation failed")
                        (snd (time_Now (record (Sent (SelectByID id)) w))))
                 | None =>
                     let (u, w1) :=
                       repository.Update t'
                         (snd (time_Now (record (Sent (SelectByID id)) w))) in
                     match u with
                     | Some err =>
                         (Err (fmt_Errorf "failed to update task" err),
                          record (Logged LevelError "Failed to update task") w1)
                     | None =>
                         (Ok t', record (Logged LevelInfo "Task updated successfully") w1)
                     end
                 end).
  { unfold service.UpdateTask.
    destruct (String.eqb_spec id "") as [E|_]; [contradiction|].
    unfold bind at 1. rewrite GetByID_run, Hsel.
    unfold bind at 1. unfold time_Now at 1.
    change (clock (record (Sent (SelectByID id)) w)) with (clock w).
    change (clock_reads (record (Sent (SelectByID id)) w)) with (clock_reads w).
    fold t'. destruct (Validate t'); [reflexivity|].
    unfold bind at 1.
    destruct (repository.Update t' _) as [[err|] w1]; reflexivity. }
  rewrite Hrun. destruct (Validate t') as [err|] eqn:V.
  - eexists. split; [|split; [|split; [reflexivity|]]]; reflexivity.
  - erewrite Update_found; [| exact Hsel' | now apply Validate_check_ok].
    eexists. split; [|split; [|split; [reflexivity|]]]; reflexivity.
Qed.

Lemma UpdateTask_missing (id title description : string) (priority : TaskPriority)
  (w : World) :
  id <> "" ->
  sqlite.select_by_id id (tasks w) = None ->
  service.UpdateTask id title description priority w =
    (Err ErrTaskNotFound,
     record (Logged LevelError "Failed to get task for update")
            (record (Sent (SelectByID id)) w)).
Proof.
  intros Hid Hsel. unfold service.UpdateTask.
  destruct (String.eqb_spec id "") as [E|_]; [contradiction|].
  unfold bind. rewrite GetByID_run, Hsel. reflexivity.
Qed.

Lemma CompleteTask_missing (id : string) (w : World) :
  id <> "" ->
  sqlite.select_by_id id (tasks w) = None ->
  service.CompleteTask id w =
    (Err ErrTaskNotFound,
     record (Logged LevelError "Failed to get task for completion")
            (record (Sent (SelectByID id)) w)).
Proof.
  intros Hid Hsel. unfold service.CompleteTask.
  destruct (String.eqb_spec id "") as [E|_]; [contradiction|].
  unfold bind. rewrite GetByID_run, Hsel. reflexivity.
Qed.

Lemma CompleteTask_completed (id : string) (w : World) (t : Task) :
  id <> "" ->
  sqlite.select_by_id id (tasks w) = Some t ->
  Status t = TaskStatusCompleted ->
  service.CompleteTask id w =
    (Ok t,
     record (Logged LevelWarn "Task already completed")
            (record (Sent (SelectByID id)) w)).
Proof.
  intros Hid Hsel Hst. unfold service.CompleteTask.
  destruct (String.eqb_spec id "") as [E|_]; [contradiction|].
  unfold bind. rewrite GetByID_run, Hsel, Hst. reflexivity.
Qed.

Lemma CompleteTask_pending (id : string) (w : World) (t : Task) :
  id <> "" ->
  sqlite.select_by_id id (tasks w) = Some t ->
  Status t <> TaskStatusCompleted ->
  let t' := MarkCompleted (clock w (clock_reads w)) t in
  exists w',
    clock w' = clock w /\ clock_reads w' = S (clock_reads w) /\
    if sqlite.check_ok t' then
      service.CompleteTask id w = (Ok t', w')
      /\ tasks w' = rewritten t' (tasks w)
      /\ trace w' = trace w ++ [Sent (SelectByID id); Sent (SelectByID id);
                                Sent (UpdateTaskRow t');
                                Logged LevelInfo "Task updated";
                                Logged LevelInfo "Task completed successfully"]
    else
      service.CompleteTask id w =
        (Err (fmt_Errorf "failed to complete task"
                (fmt_Errorf "failed to update task" (driver_error ConstraintCheck))), w')
      /\ tasks w' = tasks w.
Proof.
  intros Hid Hsel Hst t'.
  destruct (select_by_id_some _ _ _ Hsel) as [_ Hidt].
  assert (Hsel' : sqlite.select_by_id (ID t') (tasks w) = Some t).
  { simpl. now rewrite Hidt. }
  assert (Hrun : service.CompleteTask id w =
                 let (u, w1) :=
                   repository.Update t'
                     (snd (time_Now (record (Sent (SelectByID id)) w))) in
                 match u with
                 | Some err =>
                     (Err (fmt_Errorf "failed to complete task" err),
                      record (Logged LevelError "Failed to complete task") w1)
                 | None =>
                     (Ok t', record (Logged LevelInfo "Task completed successfully") w1)
                 end).
  { unfold service.CompleteTask.
    destruct (String.eqb_spec id "") as [E|_]; [contradiction|].
    unfold bind at 1. rewrite GetByID_run, Hsel.
    destruct (String.eqb_spec (Status t) TaskStatusCompleted) as [E|_]; [contradiction|].
    unfold bind at 1. unfold time_Now at 1.
    change (clock (record (Sent (SelectByID id)) w)) with (clock w).
    change (clock_reads (record (Sent (SelectByID id)) w)) with (clock_reads w).
    fold t'. unfold bind at 1.
    destruct (repository.Update t' _) as [[err|] w1]; reflexivity. }
  rewrite Hrun. destruct (sqlite.check_ok t') eqn:C.
  - erewrite Update_found; [| exact Hsel' | exact C].
    eexists. split; [|split; [|split; [reflexivity|split]]]; try reflexivity.
    simpl. rewrite Hidt. repeat rewrite <- app_assoc. reflexivity.
  - erewrite Update_found_check_fails; [| exact Hsel' | exact C].
    eexists. split; [|split; [|split; [reflexivity|]]]; reflexivity.
Qed.

(** ** Every outcome of the three mutating calls *)

Lemma CreateTask_cases (title description : string) (priority : TaskPriority) (w : World) :
  let task := {| ID := uuid w (uuid_draws w); Title := title; Description := description;
                 Status := TaskStatusPending; Priority := priority;
                 CreatedAt := clock w (clock_reads w);
                 UpdatedAt := clock w (S (clock_reads w));
                 CompletedAt := None |} in
  let out := service.CreateTask title description priority w in
  clock (snd out) = clock w
  /\ clock_reads (snd out) = S (S (clock_reads w))
  /\ ((exists e, fst out = Err e /\ tasks (snd out) = tasks w)
      \/ (fst out = Ok task
          /\ tasks (snd out) = tasks w ++ [task]
          /\ Validate task = None
          /\ sqlite.select_by_id (ID task) (tasks w) = None)).
Proof.
  intros task out.
  destruct (Validate task) as [err|] eqn:V.
  - assert (E : out = (Err (fmt_Errorf "task validation failed" err),
                       record (Logged LevelWarn "Task validation failed")
                         (snd (time_Now (snd (time_Now (snd (uuid_New w)))))))).
    { unfold out, service.CreateTask, bind, uuid_New, time_Now. simpl.
      fold task. now rewrite V. }
    rewrite E. split; [reflexivity|]. split; [reflexivity|].
    left. eexists. split; reflexivity.
  - destruct (sqlite.select_by_id (ID task) (tasks w)) as [r|] eqn:S.
    + assert (E : out = (Err (fmt_Errorf "failed to create task"
                                (fmt_Errorf "failed to create task"
                                   (driver_error ConstraintPrimaryKey))),
                         record (Logged LevelError "Failed to create task")
                           (record (Logged LevelError "Failed to create task")
                              (record (Sent (InsertTask task))
                                 (snd (time_Now (snd (time_Now (snd (uuid_New w)))))))))).
      { unfold out, service.CreateTask, bind, uuid_New, time_Now. simpl.
        fold task. rewrite V, Create_run. simpl. unfold sqlite.insert.
        rewrite (Validate_check_ok _ V). simpl.
        assert (X : existsb (sqlite.has_id (ID task)) (tasks w) = true).
        { destruct (existsb (sqlite.has_id (ID task)) (tasks w)) eqn:X; [reflexivity|].
          apply existsb_has_id in X. congruence. }
        simpl in X. rewrite X. reflexivity. }
      rewrite E. split; [reflexivity|]. split; [reflexivity|].
      left. eexists. split; reflexivity.
    + destruct (CreateTask_run title description priority w V S)
        as [w' [Hrun [Ht [Hc Hr]]]].
      fold out in Hrun. rewrite Hrun. simpl.
      split; [exact Hc|]. split; [exact Hr|].
      right. repeat split; assumption.
Qed.

Lemma UpdateTask_cases (id title description : string) (priority : TaskPriority)
  (w : World) :
  let out := service.UpdateTask id title description priority w in
  clock (snd out) = clock w
  /\ ((exists e, fst out = Err e /\ tasks (snd out) = tasks w
                 /\ (clock_reads w <= clock_reads (snd out))%nat)
      \/ (exists t,
             id <> "" /\ sqlite.select_by_id id (tasks w) = Some t
             /\ Validate (service.merge t title description priority
                            (clock w (clock_reads w))) = None
             /\ fst out = Ok (service.merge t title description priority
                                (clock w (clock_reads w)))
             /\ tasks (snd out)
                = rewritten (service.merge t title description priority
                               (clock w (clock_reads w))) (tasks w)
             /\ clock_reads (snd out) = S (clock_reads w))).
Proof.
  intros out.
  destruct (String.eqb_spec id "") as [E|Hid].
  { subst id. split; [reflexivity|]. left. eexists. repeat split. apply Nat.le_refl. }
  destruct (sqlite.select_by_id id (tasks w)) as [t|] eqn:S.
  - destruct (UpdateTask_found id title description priority w t Hid S)
      as [w' [Hc [Hr H]]].
    destruct (Validate _) as [err|] eqn:V.
    + destruct H as [Hrun Ht]. fold out in Hrun. rewrite Hrun. simpl.
      split; [exact Hc|]. left. eexists. repeat split; [exact Ht | lia].
    + destruct H as [Hrun Ht]. fold out in Hrun. rewrite Hrun. simpl.
      split; [exact Hc|]. right. exists t. repeat split; assumption.
  - unfold out. rewrite (UpdateTask_missing _ _ _ _ _ Hid S).
    split; [reflexivity|]. left. eexists. repeat split. apply Nat.le_refl.
Qed.

Lemma CompleteTask_cases (id : string) (w : World) :
  let out := service.CompleteTask id w in
  clock (snd out) = clock w
  /\ ((exists e, fst out = Err e /\ tasks (snd out) = tasks w
                 /\ (clock_reads w <= clock_reads (snd out))%nat)
      \/ (exists t,
             id <> "" /\ sqlite.select_by_id id (tasks w) = Some t
             /\ Status t = TaskStatusCompleted
             /\ fst out = Ok t
             /\ tasks (snd out) = tasks w
             /\ clock_reads (snd out) = clock_reads w)
      \/ (exists t,
             id <> "" /\ sqlite.select_by_id id (tasks w) = Some t
             /\ Status t <> TaskStatusCompleted
             /\ sqlite.check_ok (MarkCompleted (clock w (clock_reads w)) t) = true
             /\ fst out = Ok (MarkCompleted (clock w (clock_reads w)) t)
             /\ tasks (snd out) = rewritten (MarkCompleted (clock w (clock_reads w)) t) (tasks w)
             /\ clock_reads (snd out) = S (clock_reads w))).
Proof.
  intros out.
  destruct (String.eqb_spec id "") as [E|Hid].
  { subst id. split; [reflexivity|]. left. eexists. repeat split. apply Nat.le_refl. }
  destruct (sqlite.select_by_id id (tasks w)) as [t|] eqn:S.
  - destruct (String.eqb_spec (Status t) TaskStatusCompleted) as [Hst|Hst].
    + unfold out. rewrite (CompleteTask_completed _ _ _ Hid S Hst).
      split; [reflexivity|]. right. left. exists t. repeat split; assumption.
    + destruct (CompleteTask_pending id w t Hid S Hst) as [w' [Hc [Hr H]]].
      destruct (sqlite.check_ok _) eqn:C.
      * destruct H as [Hrun [Ht _]]. fold out in Hrun. rewrite Hrun. simpl.
        split; [exact Hc|]. right. right. exists t. repeat split; assumption.
      * destruct H as [Hrun Ht]. fold out in Hrun. rewrite Hrun. simpl.
        split; [exact Hc|]. left. eexists. repeat split; [exact Ht | lia].
  - unfold out. rewrite (CompleteTask_missing _ _ Hid S).
    split; [reflexivity|]. left. eexists. repeat split. apply Nat.le_refl.
Qed.

(** ** The invariant of the reachable worlds *)

Lemma stamped_later (w w' : World) (t : Task) :
  clock w' = clock w ->
  (clock_reads w <= clock_reads w')%nat ->
  stamped w t -> stamped w' t.
Proof.
  intros Hc Hr [[k [Hk Ek]] [j [Hj Ej]]]. unfold stamped. rewrite Hc. split.
  - exists k. split; [lia | exact Ek].
  - exists j. split; [lia | exact Ej].
Qed.

Lemma rewritten_ids (new : Task) (rows : list Task) :
  map ID (rewritten new rows) = map ID rows.
Proof.
  unfold rewritten. rewrite map_map. apply map_ext.
  intros r. now destruct (sqlite.has_id (ID new) r).
Qed.

Lemma Forall_rewritten (P : Task -> Prop) (new : Task) (rows : list Task) :
  (forall r, In r rows -> P r -> P (sqlite.set_columns new r)) ->
  Forall P rows -> Forall P (rewritten new rows).
Proof.
  intros Hset Hall. unfold rewritten. apply Forall_forall. intros x Hx.
  apply in_map_iff in Hx. destruct Hx as [r [Hr Hin]].
  rewrite Forall_forall in Hall.
  destruct (sqlite.has_id (ID new) r); subst x; auto.
Qed.

Lemma NoDup_map_filter {A B} (f : A -> B) (keep : A -> bool) (l : list A) :
  NoDup (map f l) -> NoDup (map f (filter keep l)).
Proof.
  induction l as [|x l IH]; simpl; intros H.
  - constructor.
  - inversion H as [|? ? Hnin Hnd]; subst.
    destruct (keep x); simpl; [|now apply IH].
    constructor; [|now apply IH].
    intros Hin. apply Hnin. apply in_map_iff in Hin.
    destruct Hin as [y [Hy Hin]]. apply filter_In in Hin.
    apply in_map_iff. exists y. tauto.
Qed.

Lemma Forall_kept {A} (P : A -> Prop) (keep : A -> bool) (l : list A) :
  Forall P l -> Forall P (filter keep l).
Proof.
  induction 1 as [|x l Hx _ IH]; simpl.
  - constructor.
  - destruct (keep x); [now constructor | exact IH].
Qed.

Lemma world_ok_same_rows (w w' : World) :
  tasks w' = tasks w -> clock w' = clock w ->
  (clock_reads w <= clock_reads w')%nat ->
  world_ok w -> world_ok w'.
Proof.
  intros Ht Hc Hr [Htab [Hcons Hst]]. unfold world_ok. rewrite Ht.
  repeat split; try apply Htab; try exact Hcons.
  eapply Forall_impl; [|exact Hst]. intros t. now apply stamped_later.
Qed.

Lemma world_ok_rewritten (w w' : World) (new : Task) :
  tasks w' = rewritten new (tasks w) -> clock w' = clock w ->
  clock_reads w' = S (clock_reads w) ->
  sqlite.check_ok new = true ->
  completion_consistent new ->
  UpdatedAt new = clock w (clock_reads w) ->
  world_ok w -> world_ok w'.
Proof.
  intros Ht Hc Hr Hck Hcon Hup [[Hnd Hchk] [Hcons Hst]].
  unfold world_ok, table_ok. rewrite Ht, rewritten_ids.
  split; [split; [exact Hnd|]|split].
  - apply Forall_rewritten; [|exact Hchk]. intros r _ _. exact Hck.
  - apply Forall_rewritten; [|exact Hcons]. intros r _ _. exact Hcon.
  - apply Forall_rewritten.
    + intros r _ [Hcr _]. unfold stamped. split.
      * exact Hcr.
      * exists (clock_reads w). rewrite Hc, Hr. split; [lia | exact Hup].
    + eapply Forall_impl; [|exact Hst]. intros r.
      apply stamped_later; [exact Hc | lia].
Qed.

Lemma select_consistent (w : World) (id : string) (t : Task) :
  world_ok w -> sqlite.select_by_id id (tasks w) = Some t ->
  completion_consistent t /\ sqlite.check_ok t = true /\ stamped w t.
Proof.
  intros [[_ Hchk] [Hcons Hst]] Hsel.
  apply select_by_id_some in Hsel. destruct Hsel as [Hin _].
  rewrite Forall_forall in Hchk, Hcons, Hst. auto.
Qed.

Lemma MarkCompleted_consistent (now : Time) (t : Task) :
  completion_consistent (MarkCompleted now t).
Proof. unfold completion_consistent. simpl. split; [reflexivity | discriminate]. Qed.

Lemma world_ok_perform (op : Op) (w : World) : world_ok w -> world_ok (perform op w).
Proof.
  intros Hok. destruct op as [title d p | id | f | id title d p | id | id]; simpl.
  - (* CreateTask *)
    destruct (CreateTask_cases title d p w) as [Hc [Hr H]].
    destruct H as [[e [_ Ht]] | [_ [Ht [Hv Hfresh]]]].
    + apply (world_ok_same_rows w); [exact Ht | exact Hc | lia | exact Hok].
    + destruct Hok as [[Hnd Hchk] [Hcons Hst]].
      unfold world_ok, table_ok. rewrite Ht.
      split; [split|split].
      * rewrite map_app. simpl.
        eapply Permutation_NoDup; [apply Permutation_cons_append|].
        constructor; [|exact Hnd].
        intros Hin. apply existsb_has_id_In in Hin.
        apply existsb_has_id in Hfresh. simpl in Hfresh. congruence.
      * apply Forall_app. split; [exact Hchk|].
        constructor; [now apply Validate_check_ok | constructor].
      * apply Forall_app. split; [exact Hcons|].
        constructor; [|constructor].
        unfold completion_consistent. simpl. split; [congruence | discriminate].
      * apply Forall_app. split.
        -- eapply Forall_impl; [|exact Hst]. intros r.
           apply stamped_later; [exact Hc | lia].
        -- constructor; [|constructor]. unfold stamped. rewrite Hc, Hr. simpl. split.
           ++ exists (clock_reads w). split; [lia | reflexivity].
           ++ exists (S (clock_reads w)). split; [lia | reflexivity].
  - (* GetTask *)
    apply (world_ok_same_rows w); try exact Hok.
    + unfold service.GetTask. destruct (String.eqb id ""); [reflexivity|].
      unfold bind. rewrite GetByID_run.
      now destruct (sqlite.select_by_id id (tasks w)).
    + unfold service.GetTask. destruct (String.eqb id ""); [reflexivity|].
      unfold bind. rewrite GetByID_run.
      now destruct (sqlite.select_by_id id (tasks w)).
    + unfold service.GetTask. destruct (String.eqb id ""); [apply Nat.le_refl|].
      unfold bind. rewrite GetByID_run.
      destruct (sqlite.select_by_id id (tasks w)); apply Nat.le_refl.
  - (* ListTasks *)
    unfold service.ListTasks, bind. rewrite List_run.
    apply (world_ok_same_rows w); try exact Hok; reflexivity.
  - (* UpdateTask *)
    destruct (UpdateTask_cases id title d p w) as [Hc H].
    destruct H as [[e [_ [Ht Hr]]] | [t [Hid [Hsel [Hv [_ [Ht Hr]]]]]]].
    + apply (world_ok_same_rows w); assumption.
    + destruct (select_consistent _ _ _ Hok Hsel) as [Hcon _].
      apply (world_ok_rewritten w _ _ Ht Hc Hr);
        [now apply Validate_check_ok | exact Hcon | reflexivity | exact Hok].
  - (* CompleteTask *)
    destruct (CompleteTask_cases id w) as [Hc H].
    destruct H as [[e [_ [Ht Hr]]]
                  | [[t [_ [_ [_ [_ [Ht Hr]]]]]]
                    | [t [Hid [Hsel [Hst [Hck [_ [Ht Hr]]]]]]]]].
    + apply (world_ok_same_rows w); assumption.
    + apply (world_ok_same_rows w); try assumption. rewrite Hr. apply Nat.le_refl.
    + apply (world_ok_rewritten w _ _ Ht Hc Hr);
        [exact Hck | apply MarkCompleted_consistent | reflexivity | exact Hok].
  - (* DeleteTask *)
    unfold service.DeleteTask. destruct (String.eqb id ""); [exact Hok|].
    unfold bind. rewrite Delete_run. cbv zeta.
    assert (Hd : world_ok (set_tasks (fst (sqlite.delete id (tasks w)))
                             (record (Sent (DeleteByID id)) w))).
    { destruct Hok as [[Hnd Hchk] [Hcons Hst]].
      unfold world_ok, table_ok. simpl.
      split; [split; [now apply NoDup_map_filter | now apply Forall_kept]|].
      split; [now apply Forall_kept|].
      apply Forall_kept. eapply Forall_impl; [|exact Hst].
      intros r. apply stamped_later; [reflexivity | apply Nat.le_refl]. }
    destruct (Nat.eqb (sqlite.rows_matching id (tasks w)) 0); exact Hd.
Qed.

Lemma reachable_ok (w : World) : reachable w -> world_ok w.
Proof.
  induction 1 as [w Hempty | w op _ IH].
  - unfold world_ok, table_ok. rewrite Hempty.
    repeat split; constructor.
  - now apply world_ok_perform.
Qed.

(** ** Successful calls, read backwards *)

Lemma UpdateTask_Ok_inv (id title description : string) (priority : TaskPriority)
  (w w' : World) (t' : Task) :
  service.UpdateTask id title description priority w = (Ok t', w') ->
  exists t,
    id <> "" /\ sqlite.select_by_id id (tasks w) = Some t
    /\ t' = service.merge t title description priority (clock w (clock_reads w))
    /\ Validate t' = None
    /\ tasks w' = rewritten t' (tasks w).
Proof.
  intros Hrun.
  destruct (UpdateTask_cases id title description priority w) as [_ H].
  rewrite Hrun in H. simpl in H.
  destruct H as [[e [He _]] | [t [Hid [Hsel [Hv [Hok [Ht _]]]]]]]; [discriminate|].
  injection Hok as ->. exists t. repeat split; assumption.
Qed.

Lemma UpdateTask_Err_inv (id title description : string) (priority : TaskPriority)
  (w w' : World) (e : error) :
  service.UpdateTask id title description priority w = (Err e, w') ->
  tasks w' = tasks w.
Proof.
  intros Hrun.
  destruct (UpdateTask_cases id title description priority w) as [_ H].
  rewrite Hrun in H. simpl in H.
  destruct H as [[e' [_ [Ht _]]] | [t [_ [_ [_ [Hok _]]]]]]; [exact Ht | discriminate].
Qed.

Lemma select_rewritten_same (new t : Task) (rows : list Task) :
  sqlite.select_by_id (ID new) rows = Some t ->
  sqlite.select_by_id (ID new) (rewritten new rows) = Some (sqlite.set_columns new t).
Proof.
  intros Hsel. unfold rewritten. rewrite select_by_id_rewritten, Hsel.
  apply select_by_id_some in Hsel. destruct Hsel as [_ Hid].
  now rewrite (proj2 (has_id_true _ _) Hid).
Qed.

Lemma select_rewritten_other (new : Task) (rows : list Task) (id : string) :
  id <> ID new ->
  sqlite.select_by_id id (rewritten new rows) = sqlite.select_by_id id rows.
Proof.
  intros Hne. unfold rewritten. rewrite select_by_id_rewritten.
  destruct (sqlite.select_by_id id rows) as [r|] eqn:Hsel; [|reflexivity].
  apply select_by_id_some in Hsel. destruct Hsel as [_ Hid].
  destruct (sqlite.has_id (ID new) r) eqn:E; [|reflexivity].
  apply has_id_true in E. congruence.
Qed.

(** ** C10: an update cannot empty a field *)

(** C10.  Whenever [UpdateTask] succeeds, an empty title, description or
    priority argument has left that field with the value the row had, and
    a field that was not empty is not empty afterwards, in the returned
    task and in the row stored under the id; so a description that is
    not empty cannot be cleared by an update.  The title and the priority
    of the result are never empty. *)
Theorem UpdateTask_never_empties (id title description : string) (priority : TaskPriority)
  (w w' : World) (t' : Task) :
  service.UpdateTask id title description priority w = (Ok t', w') ->
  exists t,
    sqlite.select_by_id id (tasks w) = Some t
    /\ (title = "" -> Title t' = Title t)
    /\ (description = "" -> Description t' = Description t)
    /\ (priority = "" -> Priority t' = Priority t)
    /\ (Description t <> "" -> Description t' <> "")
    /\ Title t' <> ""
    /\ Priority t' <> ""
    /\ sqlite.select_by_id id (tasks w') = Some t'.
Proof.
  intros Hrun.
  destruct (UpdateTask_Ok_inv _ _ _ _ _ _ _ Hrun) as [t [Hid [Hsel [Ht' [Hv Htasks]]]]].
  exists t. split; [exact Hsel|].
  destruct (select_by_id_some _ _ _ Hsel) as [_ Hidt].
  split; [intros ->; subst t'; reflexivity|].
  split; [intros ->; subst t'; reflexivity|].
  split; [intros ->; subst t'; reflexivity|].
  split.
  { intros Hd. subst t'. simpl.
    destruct (String.eqb_spec description ""); assumption. }
  apply Validate_None in Hv. destruct Hv as [Htitle [_ Hprio]].
  split; [exact Htitle|].
  split.
  { destruct Hprio as [-> | [-> | ->]]; discriminate. }
  rewrite Htasks.
  assert (Hidt' : ID t' = id) by (subst t'; exact Hidt).
  rewrite <- Hidt' at 1. rewrite <- Hidt' in Hsel.
  rewrite (select_rewritten_same _ _ _ Hsel).
  subst t'. reflexivity.
Qed.

Lemma UpdateTask_never_empties_witness :
  exists t,
    sqlite.select_by_id "a" (tasks demo_world_1) = Some t
    /\ ("" = "" -> Title (service.merge demo_task "" "" "high" 1002) = Title t)
    /\ ("" = "" -> Description (service.merge demo_task "" "" "high" 1002) = Description t)
    /\ ("high" = "" -> Priority (service.merge demo_task "" "" "high" 1002) = Priority t)
    /\ (Description t <> "" ->
        Description (service.merge demo_task "" "" "high" 1002) <> "")
    /\ Title (service.merge demo_task "" "" "high" 1002) <> ""
    /\ Priority (service.merge demo_task "" "" "high" 1002) <> ""
    /\ sqlite.select_by_id "a"
         (tasks (snd (service.UpdateTask "a" "" "" "high" demo_world_1)))
       = Some (service.merge demo_task "" "" "high" 1002).
Proof.
  apply (UpdateTask_never_empties "a" "" "" "high" demo_world_1
           (snd (service.UpdateTask "a" "" "" "high" demo_world_1))
           (service.merge demo_task "" "" "high" 1002)).
  vm_compute. reflexivity.
Defined.

(** ** C7: completion and [completed_at] *)

Lemma CreateTask_Ok_consistent (title d : string) (p : TaskPriority) (w w' : World)
  (t : Task) :
  service.CreateTask title d p w = (Ok t, w') -> completion_consistent t.
Proof.
  intros Hrun.
  destruct (CreateTask_cases title d p w) as [_ [_ H]].
  rewrite Hrun in H. simpl in H.
  destruct H as [[e [He _]] | [Hok _]]; [discriminate|].
  injection Hok as ->. unfold completion_consistent. simpl.
  split; [congruence | discriminate].
Qed.

Lemma CompleteTask_Ok_consistent (id : string) (w w' : World) (t : Task) :
  world_ok w ->
  service.CompleteTask id w = (Ok t, w') -> completion_consistent t.
Proof.
  intros Hw Hrun.
  destruct (CompleteTask_cases id w) as [_ H].
  rewrite Hrun in H. simpl in H.
  destruct H as [[e [He _]]
                | [[t0 [_ [Hsel [_ [Hok _]]]]]
                  | [t0 [_ [_ [_ [_ [Hok _]]]]]]]].
  - discriminate.
  - injection Hok as ->. now destruct (select_consistent _ _ _ Hw Hsel).
  - injection Hok as ->. apply MarkCompleted_consistent.
Qed.

(** C7.  In every world the service can reach from an empty table, every
    row of the table has [completed_at] present exactly when its status
    is completed: none is pending with [completed_at] set, none completed
    with it unset.  The same holds of the task returned by [CreateTask],
    [UpdateTask], [CompleteTask] and [GetTask], and of every row of the
    table after any further call, whether the call succeeds or not. *)
Theorem completed_at_iff_completed (w : World) :
  reachable w ->
  (forall t, In t (tasks w) ->
     completion_consistent t
     /\ ~ (Status t = TaskStatusPending /\ CompletedAt t <> None)
     /\ ~ (Status t = TaskStatusCompleted /\ CompletedAt t = None))
  /\ (forall title d p t w',
        service.CreateTask title d p w = (Ok t, w') -> completion_consistent t)
  /\ (forall id title d p t w',
        service.UpdateTask id title d p w = (Ok t, w') -> completion_consistent t)
  /\ (forall id t w',
        service.CompleteTask id w = (Ok t, w') -> completion_consistent t)
  /\ (forall id t w',
        service.GetTask id w = (Ok t, w') -> completion_consistent t)
  /\ (forall op t, In t (tasks (perform op w)) -> completion_consistent t).
Proof.
  intros Hreach. pose proof (reachable_ok _ Hreach) as Hw.
  split.
  { intros t Hin. destruct Hw as [_ [Hcons _]]. rewrite Forall_forall in Hcons.
    pose proof (Hcons t Hin) as Hc. split; [exact Hc|].
    unfold completion_consistent in Hc. split.
    - intros [Hp Hs]. apply Hc in Hs. rewrite Hs in Hp. discriminate.
    - intros [Hs Hn]. apply Hc in Hs. contradiction. }
  split; [intros title d p t w'; apply CreateTask_Ok_consistent|].
  split.
  { intros id title d p t w' Hrun.
    destruct (UpdateTask_Ok_inv _ _ _ _ _ _ _ Hrun) as [t0 [_ [Hsel [-> _]]]].
    now destruct (select_consistent _ _ _ Hw Hsel). }
  split; [intros id t w'; now apply CompleteTask_Ok_consistent|].
  split.
  { intros id t w'. unfold service.GetTask.
    destruct (String.eqb id ""); [discriminate|].
    unfold bind. rewrite GetByID_run.
    destruct (sqlite.select_by_id id (tasks w)) as [t0|] eqn:Hsel; [|discriminate].
    intros H. injection H as -> _. now destruct (select_consistent _ _ _ Hw Hsel). }
  intros op t Hin.
  destruct (world_ok_perform op w Hw) as [_ [Hcons _]].
  rewrite Forall_forall in Hcons. now apply Hcons.
Qed.

Lemma completed_at_iff_completed_witness :
  reachable demo_world_2
  /\ In (MarkCompleted 1002 demo_task) (tasks demo_world_2)
  /\ completion_consistent (MarkCompleted 1002 demo_task)
  /\ ~ (Status (MarkCompleted 1002 demo_task) = TaskStatusPending
        /\ CompletedAt (MarkCompleted 1002 demo_task) <> None)
  /\ ~ (Status (MarkCompleted 1002 demo_task) = TaskStatusCompleted
        /\ CompletedAt (MarkCompleted 1002 demo_task) = None).
Proof.
  assert (Hreach : reachable demo_world_2).
  { unfold demo_world_2, demo_world_1.
    apply reachable_step. apply reachable_step. apply reachable_fresh. reflexivity. }
  assert (Hin : In (MarkCompleted 1002 demo_task) (tasks demo_world_2)).
  { left. reflexivity. }
  split; [exact Hreach|]. split; [exact Hin|].
  destruct (completed_at_iff_completed demo_world_2 Hreach) as [Hrows _].
  exact (Hrows _ Hin).
Defined.

(** ** C4: completing twice *)

(** C4.  For a non-empty id under which the table, respecting its
    constraints, holds a row: if the row is completed, [CompleteTask]
    returns it as it is, without error, and the only thing it does to
    the world is one SELECT and one warning in the log: no UPDATE is
    sent, no row changes, the clock is not read.  If the row is pending,
    [CompleteTask] returns it with status completed and [completed_at]
    and [updated_at] set to the present reading of the clock, stores it
    under the id and leaves the other rows alone; and a second
    [CompleteTask] then returns that same task, with the same
    [completed_at], and leaves the table as it is. *)
Theorem CompleteTask_idempotent (id : string) (w : World) (t : Task) :
  id <> "" ->
  table_ok (tasks w) ->
  sqlite.select_by_id id (tasks w) = Some t ->
  (Status t = TaskStatusCompleted ->
     service.CompleteTask id w =
       (Ok t, record (Logged LevelWarn "Task already completed")
                (record (Sent (SelectByID id)) w)))
  /\ (Status t = TaskStatusPending ->
      exists t' w' w'',
        service.CompleteTask id w = (Ok t', w')
        /\ t' = MarkCompleted (clock w (clock_reads w)) t
        /\ Status t' = TaskStatusCompleted
        /\ CompletedAt t' = Some (clock w (clock_reads w))
        /\ UpdatedAt t' = clock w (clock_reads w)
        /\ sqlite.select_by_id id (tasks w') = Some t'
        /\ (forall id', id' <> id ->
              sqlite.select_by_id id' (tasks w') = sqlite.select_by_id id' (tasks w))
        /\ service.CompleteTask id w' = (Ok t', w'')
        /\ tasks w'' = tasks w'
        /\ clock_reads w'' = clock_reads w').
Proof.
  intros Hid [_ Hchk] Hsel. split.
  - intros Hst. now apply CompleteTask_completed.
  - intros Hst.
    assert (Hne : Status t <> TaskStatusCompleted) by (rewrite Hst; discriminate).
    destruct (select_by_id_some _ _ _ Hsel) as [Hin Hidt].
    rewrite Forall_forall in Hchk. pose proof (Hchk t Hin) as Hck.
    destruct (CompleteTask_pending id w t Hid Hsel Hne) as [w' [Hc [Hr H]]].
    set (t' := MarkCompleted (clock w (clock_reads w)) t) in *.
    assert (Hck' : sqlite.check_ok t' = true).
    { unfold sqlite.check_ok in *. simpl.
      apply andb_true_iff in Hck. now destruct Hck as [_ ->]. }
    rewrite Hck' in H. destruct H as [Hrun [Htasks _]].
    assert (Hsel' : sqlite.select_by_id id (tasks w') = Some t').
    { rewrite Htasks. rewrite <- Hidt in Hsel |- *.
      change (ID t) with (ID t') in Hsel |- *.
      now rewrite (select_rewritten_same _ _ _ Hsel). }
    exists t', w'. eexists.
    split; [exact Hrun|]. split; [reflexivity|].
    split; [reflexivity|]. split; [reflexivity|]. split; [reflexivity|].
    split; [exact Hsel'|].
    split.
    { intros id' Hne'. rewrite Htasks. apply select_rewritten_other.
      simpl. now rewrite Hidt. }
    split; [apply (CompleteTask_completed id w' t' Hid Hsel' eq_refl)|].
    split; reflexivity.
Qed.

Lemma CompleteTask_idempotent_witness :
  exists t' w' w'',
    service.CompleteTask "a" demo_world_1 = (Ok t', w')
    /\ t' = MarkCompleted (clock demo_world_1 (clock_reads demo_world_1)) demo_task
    /\ Status t' = TaskStatusCompleted
    /\ CompletedAt t' = Some (clock demo_world_1 (clock_reads demo_world_1))
    /\ UpdatedAt t' = clock demo_world_1 (clock_reads demo_world_1)
    /\ sqlite.select_by_id "a" (tasks w') = Some t'
    /\ (forall id', id' <> "a" ->
          sqlite.select_by_id id' (tasks w') = sqlite.select_by_id id' (tasks demo_world_1))
    /\ service.CompleteTask "a" w' = (Ok t', w'')
    /\ tasks w'' = tasks w'
    /\ clock_reads w'' = clock_reads w'.
Proof.
  apply (CompleteTask_idempotent "a" demo_world_1 demo_task).
  - discriminate.
  - split.
    + change (NoDup ["a"]). constructor; [intros []|constructor].
    + change (Forall (fun r => sqlite.check_ok r = true) [demo_task]).
      constructor; [reflexivity | constructor].
  - reflexivity.
  - reflexivity.
Defined.

(** ** C6: running the migrations again *)

Lemma has_name_find_table (n : string) (ts : list sqlite.TableDef) :
  sqlite.has_name n ts = true <-> exists cols, sqlite.find_table n ts = Some cols.
Proof.
  unfold sqlite.has_name. induction ts as [|[m cols] ts IH]; simpl.
  - split; [discriminate | intros [c H]; discriminate].
  - destruct (String.eqb m n); simpl.
    + split; [intros _; now exists cols | reflexivity].
    + exact IH.
Qed.

Lemma find_table_app (n : string) (ts more : list sqlite.TableDef) (cols : list string) :
  sqlite.find_table n ts = Some cols -> sqlite.find_table n (ts ++ more) = Some cols.
Proof.
  induction ts as [|[m c] ts IH]; simpl; intros H.
  - discriminate.
  - destruct (String.eqb m n); [exact H | now apply IH].
Qed.

Lemma exec_ddl_keeps_table (s : sqlite.DDL) (ts ts' : list sqlite.TableDef)
  (ixs ixs' : list sqlite.IndexDef) (n : string) (cols : list string) :
  sqlite.exec_ddl s ts ixs = inr (ts', ixs') ->
  sqlite.find_table n ts = Some cols -> sqlite.find_table n ts' = Some cols.
Proof.
  intros He Hf. destruct s as [m c | m t c]; simpl in He.
  - destruct (sqlite.has_name m ts); [now injection He as <- <-|].
    destruct (sqlite.has_name m ixs); [discriminate|].
    injection He as <- <-. now apply find_table_app.
  - destruct (sqlite.find_table t ts); [|discriminate].
    destruct (sqlite.has_name m ts); [discriminate|].
    destruct (sqlite.has_name m ixs); [now injection He as <- <-|].
    destruct (sqlite.has_column c l); [now injection He as <- <- | discriminate].
Qed.

Lemma exec_script_keeps_table (script : list sqlite.DDL) (ts ts' : list sqlite.TableDef)
  (ixs ixs' : list sqlite.IndexDef) (n : string) (cols : list string) :
  sqlite.exec_script script ts ixs = inr (ts', ixs') ->
  sqlite.find_table n ts = Some cols -> sqlite.find_table n ts' = Some cols.
Proof.
  revert ts ixs. induction script as [|s script IH]; simpl; intros ts ixs He Hf.
  - now injection He as <- <-.
  - destruct (sqlite.exec_ddl s ts ixs) as [e|[ts1 ixs1]] eqn:E; [discriminate|].
    eapply IH; [exact He|]. eapply exec_ddl_keeps_table; eassumption.
Qed.

Lemma record_all_frame (es : list Event) (w : World) :
  database (record_all es w) = database w
  /\ trace (record_all es w) = trace w ++ es
  /\ clock (record_all es w) = clock w
  /\ clock_reads (record_all es w) = clock_reads w.
Proof.
  revert w. induction es as [|e es IH]; intros w; simpl.
  - now rewrite app_nil_r.
  - destruct (IH (record e w)) as [Hd [Ht [Hc Hr]]].
    unfold record_all in *. simpl. rewrite Hd, Ht, Hc, Hr. simpl.
    repeat split. now rewrite <- app_assoc.
Qed.

Lemma migrated_frame (w w' : World) :
  catalogue w' = catalogue w -> migrated w -> migrated w'.
Proof.
  unfold catalogue, migrated, ledger_ready.
  intros H. injection H as Ht _ Hl. now rewrite Ht, Hl.
Qed.

Lemma keeps_ret {A} (a : A) : keeps_catalogue (ret a).
Proof. intros w. reflexivity. Qed.

Lemma keeps_bind {A B} (m : State A) (k : A -> State B) :
  keeps_catalogue m -> (forall a, keeps_catalogue (k a)) -> keeps_catalogue (bind m k).
Proof.
  intros Hm Hk w. unfold bind. specialize (Hm w).
  destruct (m w) as [a w1]. simpl in Hm. now rewrite Hk.
Qed.

Lemma keeps_primitives :
  keeps_catalogue time_Now /\ keeps_catalogue uuid_New
  /\ (forall l m, keeps_catalogue (logger l m))
  /\ (forall t, keeps_catalogue (sql.ExecContext_InsertTask t))
  /\ (forall id, keeps_catalogue (sql.QueryRowContext_SelectByID id))
  /\ (forall ps args, keeps_catalogue (sql.QueryContext_SelectWhere ps args))
  /\ (forall t, keeps_catalogue (sql.ExecContext_UpdateTaskRow t))
  /\ (forall id, keeps_catalogue (sql.ExecContext_DeleteByID id)).
Proof.
  repeat split; intros; intros w; try reflexivity.
  - unfold sql.ExecContext_InsertTask. now destruct (sqlite.insert _ _).
  - unfold sql.QueryContext_SelectWhere. now destruct (sqlite.select_where _ _ _).
  - unfold sql.ExecContext_UpdateTaskRow. now destruct (sqlite.update _ _) as [e|[rows n]].
Qed.

Ltac keeps_step :=
  first
    [ apply keeps_ret
    | apply keeps_bind; [|intros ?]
    | apply keeps_primitives
    | match goal with
      | |- keeps_catalogue (match ?x with _ => _ end) => destruct x
      | |- keeps_catalogue (let (_, _) := ?x in _) => destruct x
      end ].

(** No call of the service writes to the catalogue or the ledger. *)
Lemma service_keeps_catalogue :
  (forall title d p, keeps_catalogue (service.CreateTask title d p))
  /\ (forall id, keeps_catalogue (service.GetTask id))
  /\ (forall f, keeps_catalogue (service.ListTasks f))
  /\ (forall id title d p, keeps_catalogue (service.UpdateTask id title d p))
  /\ (forall id, keeps_catalogue (service.CompleteTask id))
  /\ (forall id, keeps_catalogue (service.DeleteTask id)).
Proof.
  repeat split; intros;
    unfold service.CreateTask, service.GetTask, service.ListTasks, service.UpdateTask,
      service.CompleteTask, service.DeleteTask, repository.Create, repository.GetByID,
      repository.List, repository.Update, repository.Update_write, repository.Delete;
    repeat keeps_step.
Qed.

Lemma migrated_perform_all (ops : list Op) (w : World) :
  migrated w -> migrated (perform_all ops w).
Proof.
  revert w. induction ops as [|op ops IH]; intros w Hm.
  - exact Hm.
  - apply (IH (perform op w)). apply (migrated_frame w); [|exact Hm].
    destruct op; simpl; now apply service_keeps_catalogue.
Qed.

Lemma is_applied_In (applied : list string) (v : string) :
  storage.is_applied applied v = true <-> In v applied.
Proof.
  unfold storage.is_applied. rewrite existsb_exists. split.
  - intros [x [Hin He]]. apply String.eqb_eq in He. now subst x.
  - intros Hin. exists v. split; [exact Hin | apply String.eqb_refl].
Qed.

(** With every version applied, the loop only logs. *)
Lemma applyPending_all_applied (applied versions : list string) (w : World) :
  (forall v, In v versions -> In v applied) ->
  storage.applyPending applied versions w =
    (None, record_all (map (fun _ => Logged LevelDebug "Migration already applied")
                           versions) w).
Proof.
  revert w. induction versions as [|v rest IH]; intros w Hall.
  - reflexivity.
  - simpl. rewrite (proj2 (is_applied_In applied v) (Hall v (or_introl eq_refl))).
    unfold bind, logger. rewrite IH; [reflexivity|].
    intros x Hx. apply Hall. now right.
Qed.

(** A run of the loop that succeeds leaves every version in the ledger. *)
Lemma applyPending_success (applied versions : list string) (w w' : World) :
  storage.applyPending applied versions w = (None, w') ->
  incl applied (ledger w) ->
  ledger_ready w ->
  ledger_ready w' /\ incl (ledger w) (ledger w')
  /\ forall v, In v versions -> In v (ledger w').
Proof.
  revert w. induction versions as [|v rest IH]; intros w Hrun Hincl Hready.
  - injection Hrun as <-. split; [exact Hready|]. split; [apply incl_refl|].
    intros v [].
  - simpl in Hrun. destruct (storage.is_applied applied v) eqn:A.
    + unfold bind, logger in Hrun. apply IH in Hrun; [|exact Hincl|exact Hready].
      destruct Hrun as [Hr [Hi Hv]]. split; [exact Hr|]. split; [exact Hi|].
      intros x [<- | Hx]; [|now apply Hv].
      apply Hi, Hincl. now apply is_applied_In.
    + unfold bind, logger, sql.BeginTx, sql.ExecContext_Script in Hrun. simpl in Hrun.
      destruct (sqlite.exec_script _ (tables w) (indexes w)) as [e|[ts ixs]] eqn:X;
        [discriminate|].
      unfold sql.ExecContext_RecordVersion in Hrun. simpl in Hrun.
      destruct Hready as [cols [Hf Hcol]].
      rewrite (exec_script_keeps_table _ _ _ _ _ _ _ X Hf) in Hrun.
      rewrite Hcol in Hrun. simpl in Hrun.
      destruct (existsb (String.eqb v) (ledger w)); [discriminate|].
      simpl in Hrun. apply IH in Hrun.
      * simpl in Hrun. destruct Hrun as [Hr [Hi Hv]]. split; [exact Hr|]. split.
        -- intros x Hx. apply Hi. apply in_or_app. now left.
        -- intros x [<- | Hx]; [|now apply Hv].
           apply Hi. apply in_or_app. right. now left.
      * simpl. intros x Hx. apply in_or_app. left. now apply Hincl.
      * exists cols. simpl. split; [|exact Hcol].
        eapply exec_script_keeps_table; eassumption.
Qed.

Lemma runMigrations_success_migrated (w0 w : World) :
  storage.runMigrations w0 = (None, w) -> migrated w.
Proof.
  unfold migrated, storage.runMigrations.
  remember (storage.sort_Strings (map fst storage.migrations)) as versions eqn:Hvs.
  clear Hvs.
  unfold bind, sql.ExecContext_CreateLedger.
  destruct (sqlite.exec_ddl _ _ _) as [e|[ts ixs]] eqn:D; [discriminate|].
  unfold storage.getAppliedMigrations, bind, sql.QueryContext_SelectLedger. simpl.
  destruct (sqlite.find_table "migrations" ts) as [cols|] eqn:F; [|discriminate].
  destruct (sqlite.has_column "version" cols) eqn:C; [|discriminate].
  unfold ret. intros Hrun.
  apply applyPending_success in Hrun.
  - destruct Hrun as [Hr [_ Hv]]. split; assumption.
  - apply incl_refl.
  - exists cols. split; assumption.
Qed.

Lemma runMigrations_migrated (w : World) :
  migrated w ->
  storage.runMigrations w = (None, record_all noop_events w).
Proof.
  intros [[cols [Hf Hcol]] Hall].
  unfold noop_events, storage.runMigrations.
  remember (storage.sort_Strings (map fst storage.migrations)) as versions eqn:Hvs.
  clear Hvs.
  unfold bind, sql.ExecContext_CreateLedger.
  assert (Hn : sqlite.has_name "migrations" (tables (record (Sent CreateLedger) w)) = true).
  { apply has_name_find_table. now exists cols. }
  unfold sqlite.exec_ddl. rewrite Hn.
  unfold storage.getAppliedMigrations, bind, sql.QueryContext_SelectLedger. simpl.
  rewrite Hf, Hcol. unfold ret.
  rewrite applyPending_all_applied; [reflexivity | exact Hall].
Qed.

Lemma noop_events_harmless :
  Forall (fun e => applies_migration e = false) noop_events.
Proof.
  unfold noop_events. apply Forall_app. split.
  - repeat constructor.
  - apply Forall_forall. intros e He. apply in_map_iff in He.
    destruct He as [v [<- _]]. reflexivity.
Qed.

(** C6.  On a database that a run of [runMigrations] has migrated, and
    that the service has been using since, any number of further runs
    all return nil, and leave the catalogue (the tables and the indexes),
    the ledger and the rows exactly as they were.  Each such run sends
    the guarded creation of the ledger table, which finds it present,
    and the read of the ledger, and logs that the version is already
    applied: it executes no migration script, records no version and
    opens no transaction. *)
Theorem runMigrations_idempotent (w0 w : World) (ops : list Op) (n : nat) :
  storage.runMigrations w0 = (None, w) ->
  exists w',
    rerun n (perform_all ops w) = (repeat None n, w')
    /\ database w' = database (perform_all ops w)
    /\ trace w' = trace (perform_all ops w) ++ List.concat (repeat noop_events n)
    /\ Forall (fun e => applies_migration e = false) (List.concat (repeat noop_events n))
    /\ migrated w'.
Proof.
  intros Hrun. apply runMigrations_success_migrated in Hrun.
  apply (migrated_perform_all ops) in Hrun.
  generalize dependent (perform_all ops w). clear w.
  induction n as [|n IH]; intros w Hm.
  - exists w. simpl. rewrite app_nil_r. repeat split; try assumption. constructor.
    + apply Hm.
    + apply Hm.
  - change (List.concat (repeat noop_events (S n)))
      with (noop_events ++ List.concat (repeat noop_events n)).
    cbn [rerun]. unfold bind. rewrite (runMigrations_migrated _ Hm).
    destruct (record_all_frame noop_events w) as [Hd [Ht _]].
    assert (Hcat : catalogue (record_all noop_events w) = catalogue w).
    { reflexivity. }
    destruct (IH (record_all noop_events w) (migrated_frame _ _ Hcat Hm))
      as [w' [Hre [Hd' [Ht' [Hf Hm']]]]].
    rewrite Hre. exists w'. unfold ret.
    split; [reflexivity|]. split; [now rewrite Hd'|].
    split; [now rewrite Ht', Ht, app_assoc|].
    split; [|exact Hm'].
    apply Forall_app. split; [apply noop_events_harmless | exact Hf].
Qed.

Lemma runMigrations_idempotent_witness :
  exists w',
    rerun 3 (perform_all [OpCreateTask "Buy milk" "" TaskPriorityLow; OpCompleteTask "a"]
               (snd (storage.runMigrations demo_world)))
    = (repeat None 3, w')
    /\ database w'
       = database (perform_all [OpCreateTask "Buy milk" "" TaskPriorityLow; OpCompleteTask "a"]
                     (snd (storage.runMigrations demo_world)))
    /\ trace w'
       = trace (perform_all [OpCreateTask "Buy milk" "" TaskPriorityLow; OpCompleteTask "a"]
                  (snd (storage.runMigrations demo_world)))
         ++ List.concat (repeat noop_events 3)
    /\ Forall (fun e => applies_migration e = false) (List.concat (repeat noop_events 3))
    /\ migrated w'.
Proof.
  apply (runMigrations_idempotent demo_world (snd (storage.runMigrations demo_world))
           [OpCreateTask "Buy milk" "" TaskPriorityLow; OpCompleteTask "a"] 3).
  vm_compute. reflexivity.
Defined.

(** * Further properties of the repository, the service and the storage *)

(** ** The repository: insert, look up, rewrite, remove *)

Lemma select_by_id_app_found (id : string) (rows : list Task) (t r : Task) :
  sqlite.select_by_id id rows = Some r ->
  sqlite.select_by_id id (rows ++ [t]) = Some r.
Proof.
  unfold sqlite.select_by_id.
  induction rows as [|x rows IH]; simpl; intros H.
  - discriminate.
  - destruct (sqlite.has_id id x); [exact H | now apply IH].
Qed.

Lemma select_by_id_app_other (id : string) (rows : list Task) (t : Task) :
  id <> ID t ->
  sqlite.select_by_id id (rows ++ [t]) = sqlite.select_by_id id rows.
Proof.
  intros Hne. destruct (sqlite.select_by_id id rows) as [r|] eqn:S.
  - now apply select_by_id_app_found.
  - rewrite (select_by_id_app_new _ _ _ S).
    destruct (sqlite.has_id id t) eqn:E; [|reflexivity].
    apply has_id_true in E. congruence.
Qed.

Lemma select_by_id_deleted (id id' : string) (rows : list Task) :
  sqlite.select_by_id id' (filter (fun r => negb (sqlite.has_id id r)) rows)
  = if String.eqb id id' then None else sqlite.select_by_id id' rows.
Proof.
  unfold sqlite.select_by_id.
  induction rows as [|x rows IH]; simpl.
  - now destruct (String.eqb id id').
  - destruct (sqlite.has_id id x) eqn:Hx; simpl.
    + rewrite IH. destruct (String.eqb_spec id id') as [E|E]; [reflexivity|].
      destruct (sqlite.has_id id' x) eqn:Hx'; [|reflexivity].
      apply has_id_true in Hx, Hx'. congruence.
    + destruct (sqlite.has_id id' x) eqn:Hx'.
      * destruct (String.eqb_spec id id') as [E|E]; [|reflexivity].
        subst id'. congruence.
      * exact IH.
Qed.

(** [Create] succeeds exactly when the task satisfies the CHECK
    constraints and no row has its id.  Then [GetByID] of that id returns
    a task with the id, title, description, status and priority given,
    and with a [completed_at] exactly if one was given; lookups of other
    ids give what they gave before.  When [Create] fails the table is as
    before. *)
Theorem Create_then_GetByID (task : Task) (w : World) :
  (fst (repository.Create task w) = None
   <-> sqlite.check_ok task = true /\ sqlite.select_by_id (ID task) (tasks w) = None)
  /\ (fst (repository.Create task w) = None ->
      (exists t',
          fst (repository.GetByID (ID task) (snd (repository.Create task w))) = Ok t'
          /\ ID t' = ID task /\ Title t' = Title task
          /\ Description t' = Description task
          /\ Status t' = Status task /\ Priority t' = Priority task
          /\ (CompletedAt t' = None <-> CompletedAt task = None))
      /\ forall id, id <> ID task ->
           fst (repository.GetByID id (snd (repository.Create task w)))
           = fst (repository.GetByID id w))
  /\ (fst (repository.Create task w) <> None ->
      tasks (snd (repository.Create task w)) = tasks w).
Proof.
  rewrite Create_run. unfold sqlite.insert.
  destruct (sqlite.check_ok task) eqn:C; simpl.
  - destruct (existsb (sqlite.has_id (ID task)) (tasks w)) eqn:X; simpl.
    + split; [|split].
      * split; [discriminate|]. intros [_ Hs]. apply existsb_has_id in Hs. congruence.
      * discriminate.
      * reflexivity.
    + apply existsb_has_id in X. split; [|split].
      * tauto.
      * intros _. split.
        -- exists task. rewrite GetByID_run. simpl.
           rewrite (select_by_id_app_new _ _ _ X).
           rewrite (proj2 (has_id_true (ID task) task) eq_refl).
           repeat split; auto.
        -- intros id Hne. rewrite !GetByID_run. simpl.
           now rewrite (select_by_id_app_other _ _ _ Hne).
      * congruence.
  - split; [|split].
    + split; [discriminate | intros [H _]; discriminate].
    + discriminate.
    + reflexivity.
Qed.

(** [Update] of a task whose id names a row and whose status and priority
    satisfy the CHECK constraints succeeds; [GetByID] then returns a task
    with the title, description, status and priority of the argument,
    with a [completed_at] exactly if the argument has one, and with the
    id and the [created_at] that [GetByID] returned before, whatever
    [CreatedAt] the argument carries; lookups of other ids give what
    they gave before.  When the constraints fail the error wraps the
    driver's and the table is as before. *)
Theorem Update_then_GetByID (task old : Task) (w : World) :
  fst (repository.GetByID (ID task) w) = Ok old ->
  (sqlite.check_ok task = true ->
     fst (repository.Update task w) = None
     /\ (exists t',
           fst (repository.GetByID (ID task) (snd (repository.Update task w))) = Ok t'
           /\ Title t' = Title task /\ Description t' = Description task
           /\ Status t' = Status task /\ Priority t' = Priority task
           /\ (CompletedAt t' = None <-> CompletedAt task = None)
           /\ ID t' = ID old /\ CreatedAt t' = CreatedAt old)
     /\ forall id, id <> ID task ->
          fst (repository.GetByID id (snd (repository.Update task w)))
          = fst (repository.GetByID id w))
  /\ (sqlite.check_ok task = false ->
      fst (repository.Update task w)
      = Some (fmt_Errorf "failed to update task" (driver_error ConstraintCheck))
      /\ tasks (snd (repository.Update task w)) = tasks w).
Proof.
  rewrite GetByID_run. simpl.
  destruct (sqlite.select_by_id (ID task) (tasks w)) as [r|] eqn:Hsel; [|discriminate].
  intros H. injection H as ->. split; intros Hck.
  - rewrite (Update_found _ _ _ Hsel Hck). simpl.
    split; [reflexivity|]. split.
    + exists (sqlite.set_columns task old). rewrite GetByID_run. simpl.
      rewrite (select_rewritten_same _ _ _ Hsel).
      repeat split; auto.
    + intros id Hne. rewrite !GetByID_run. simpl.
      now rewrite (select_rewritten_other _ _ _ Hne).
  - rewrite (Update_found_check_fails _ _ _ Hsel Hck). split; reflexivity.
Qed.

Lemma Update_then_GetByID_witness :
  fst (repository.Update (MarkCompleted 5000 demo_task) demo_world_1) = None
  /\ (exists t',
        fst (repository.GetByID "a"
               (snd (repository.Update (MarkCompleted 5000 demo_task) demo_world_1)))
        = Ok t'
        /\ Title t' = "Buy milk" /\ Description t' = "2 litres"
        /\ Status t' = TaskStatusCompleted /\ Priority t' = TaskPriorityLow
        /\ (CompletedAt t' = None <-> Some 5000 = None)
        /\ ID t' = "a" /\ CreatedAt t' = CreatedAt demo_task).
Proof.
  destruct (Update_then_GetByID (MarkCompleted 5000 demo_task) demo_task demo_world_1)
    as [H _]; [reflexivity|].
  destruct (H eq_refl) as [H1 [H2 _]]. split; [exact H1 | exact H2].
Defined.

(** After [DeleteTask] of a non-empty id, whatever it returned, [GetTask]
    of that id reports [ErrTaskNotFound] and a second [DeleteTask] does
    too; the rows under other ids are as before. *)
Theorem DeleteTask_then_GetTask (id : string) (w : World) :
  id <> "" ->
  fst (service.GetTask id (snd (service.DeleteTask id w))) = Err ErrTaskNotFound
  /\ fst (service.DeleteTask id (snd (service.DeleteTask id w))) = Some ErrTaskNotFound
  /\ forall id', id' <> id ->
       sqlite.select_by_id id' (tasks (snd (service.DeleteTask id w)))
       = sqlite.select_by_id id' (tasks w).
Proof.
  intros Hid.
  assert (Ht : tasks (snd (service.DeleteTask id w))
               = filter (fun r => negb (sqlite.has_id id r)) (tasks w)).
  { unfold service.DeleteTask.
    destruct (String.eqb_spec id "") as [E|_]; [contradiction|].
    unfold bind. rewrite Delete_run. cbv zeta.
    now destruct (Nat.eqb (sqlite.rows_matching id (tasks w)) 0). }
  assert (Hgone : sqlite.select_by_id id (tasks (snd (service.DeleteTask id w))) = None).
  { rewrite Ht, select_by_id_deleted. now rewrite String.eqb_refl. }
  split; [|split].
  - unfold service.GetTask.
    destruct (String.eqb_spec id "") as [E|_]; [contradiction|].
    unfold bind. rewrite GetByID_run, Hgone. reflexivity.
  - unfold service.DeleteTask at 1.
    destruct (String.eqb_spec id "") as [E|_]; [contradiction|].
    unfold bind. rewrite Delete_run. cbv zeta.
    apply rows_matching_zero in Hgone. rewrite Hgone. reflexivity.
  - intros id' Hne. rewrite Ht, select_by_id_deleted.
    destruct (String.eqb_spec id id') as [E|_]; [congruence | reflexivity].
Qed.

Lemma DeleteTask_then_GetTask_witness :
  fst (service.GetTask "a" (snd (service.DeleteTask "a" demo_world_1))) = Err ErrTaskNotFound
  /\ fst (service.DeleteTask "a" (snd (service.DeleteTask "a" demo_world_1)))
     = Some ErrTaskNotFound.
Proof.
  destruct (DeleteTask_then_GetTask "a" demo_world_1) as [H1 [H2 _]]; [discriminate|].
  split; [exact H1 | exact H2].
Defined.

(** For a non-empty id that no row has, [GetTask], [UpdateTask],
    [CompleteTask] and [DeleteTask] each return the [ErrTaskNotFound]
    value itself, not a wrapped one; the table is as before, the clock is
    not read and no UPDATE is sent. *)
Theorem missing_id_reported_as_not_found (id : string) (w : World) :
  id <> "" ->
  sqlite.select_by_id id (tasks w) = None ->
  service.GetTask id w
    = (Err ErrTaskNotFound,
       record (Logged LevelError "Failed to get task") (record (Sent (SelectByID id)) w))
  /\ (forall title description priority,
        service.UpdateTask id title description priority w
        = (Err ErrTaskNotFound,
           record (Logged LevelError "Failed to get task for update")
                  (record (Sent (SelectByID id)) w)))
  /\ service.CompleteTask id w
     = (Err ErrTaskNotFound,
        record (Logged LevelError "Failed to get task for completion")
               (record (Sent (SelectByID id)) w))
  /\ fst (service.DeleteTask id w) = Some ErrTaskNotFound
  /\ tasks (snd (service.DeleteTask id w)) = tasks w
  /\ clock_reads (snd (service.DeleteTask id w)) = clock_reads w.
Proof.
  intros Hid Hsel. split; [|split; [|split]].
  - unfold service.GetTask.
    destruct (String.eqb_spec id "") as [E|_]; [contradiction|].
    unfold bind. rewrite GetByID_run, Hsel. reflexivity.
  - intros. now apply UpdateTask_missing.
  - now apply CompleteTask_missing.
  - unfold service.DeleteTask.
    destruct (String.eqb_spec id "") as [E|_]; [contradiction|].
    unfold bind. rewrite Delete_run. cbv zeta.
    pose proof (proj2 (rows_matching_zero id (tasks w)) Hsel) as Hz.
    rewrite Hz. simpl. split; [reflexivity|]. split; [|reflexivity].
    now apply delete_unmatched.
Qed.

Lemma missing_id_reported_as_not_found_witness :
  service.GetTask "nonexistent-id" demo_world_1
    = (Err ErrTaskNotFound,
       record (Logged LevelError "Failed to get task")
              (record (Sent (SelectByID "nonexistent-id")) demo_world_1))
  /\ fst (service.DeleteTask "nonexistent-id" demo_world_1) = Some ErrTaskNotFound.
Proof.
  destruct (missing_id_reported_as_not_found "nonexistent-id" demo_world_1)
    as [H1 [_ [_ [H4 _]]]]; [discriminate | reflexivity |].
  split; [exact H1 | exact H4].
Defined.

(** ** Input the service rejects *)

Lemma Validate_priority (t : Task) :
  Title t <> "" ->
  Status t = TaskStatusPending \/ Status t = TaskStatusCompleted ->
  ~ In (Priority t) [TaskPriorityLow; TaskPriorityMedium; TaskPriorityHigh] ->
  Validate t = Some (errors_New "invalid task priority").
Proof.
  intros Ht Hs Hp. unfold Validate.
  destruct (String.eqb_spec (Title t) "") as [E|_]; [contradiction|].
  assert (Hst : negb (String.eqb (Status t) TaskStatusPending)
                && negb (String.eqb (Status t) TaskStatusCompleted) = false).
  { destruct Hs as [-> | ->]; reflexivity. }
  rewrite Hst.
  destruct (String.eqb_spec (Priority t) TaskPriorityLow) as [E|_];
    [exfalso; apply Hp; simpl; auto|].
  destruct (String.eqb_spec (Priority t) TaskPriorityMedium) as [E|_];
    [exfalso; apply Hp; simpl; auto|].
  destruct (String.eqb_spec (Priority t) TaskPriorityHigh) as [E|_];
    [exfalso; apply Hp; simpl; auto|].
  reflexivity.
Qed.

(** With an empty title, or a priority that is none of low, medium and
    high, [CreateTask] returns the validation error wrapped (for an empty
    title always the one about the title) and sends nothing to the
    database: the table is as before and the only event is the warning
    in the log.  An identifier has been drawn and the clock read twice
    all the same. *)
Theorem CreateTask_invalid_input (title description : string) (priority : TaskPriority)
  (w : World) :
  title = "" \/ ~ In priority [TaskPriorityLow; TaskPriorityMedium; TaskPriorityHigh] ->
  exists msg w',
    service.CreateTask title description priority w
      = (Err (fmt_Errorf "task validation failed" (errors_New msg)), w')
    /\ (title = "" -> msg = "task title cannot be empty")
    /\ (title <> "" -> msg = "invalid task priority")
    /\ tasks w' = tasks w
    /\ trace w' = trace w ++ [Logged LevelWarn "Task validation failed"]
    /\ uuid_draws w' = S (uuid_draws w)
    /\ clock_reads w' = S (S (clock_reads w)).
Proof.
  intros Hbad.
  set (task := {| ID := uuid w (uuid_draws w); Title := title; Description := description;
                  Status := TaskStatusPending; Priority := priority;
                  CreatedAt := clock w (clock_reads w);
                  UpdatedAt := clock w (S (clock_reads w));
                  CompletedAt := None |}).
  assert (Hv : exists msg, Validate task = Some (errors_New msg)
                           /\ (title = "" -> msg = "task title cannot be empty")
                           /\ (title <> "" -> msg = "invalid task priority")).
  { destruct (String.eqb_spec title "") as [E|E].
    - exists "task title cannot be empty". split; [|tauto].
      unfold Validate. simpl. subst title. reflexivity.
    - exists "invalid task priority". split; [|tauto].
      apply Validate_priority; simpl;
        [exact E | now left | destruct Hbad as [H|H]; [contradiction | exact H]]. }
  destruct Hv as [msg [Hv [H1 H2]]].
  exists msg. eexists. split.
  - unfold service.CreateTask, bind, uuid_New, time_Now. simpl.
    fold task. rewrite Hv. reflexivity.
  - repeat split; assumption.
Qed.

Lemma CreateTask_invalid_input_witness :
  exists msg w',
    service.CreateTask "" "Description" TaskPriorityHigh demo_world_1
      = (Err (fmt_Errorf "task validation failed" (errors_New msg)), w')
    /\ ("" = "" -> msg = "task title cannot be empty")
    /\ ("" <> "" -> msg = "invalid task priority")
    /\ tasks w' = tasks demo_world_1
    /\ trace w' = trace demo_world_1 ++ [Logged LevelWarn "Task validation failed"]
    /\ uuid_draws w' = S (uuid_draws demo_world_1)
    /\ clock_reads w' = S (S (clock_reads demo_world_1)).
Proof.
  apply (CreateTask_invalid_input "" "Description" TaskPriorityHigh demo_world_1).
  left. reflexivity.
Defined.

(** [UpdateTask] of a valid stored task with a priority that is not empty
    and none of low, medium and high returns the validation error
    wrapped; the row was read but nothing is written: the table is as
    before and no UPDATE is sent. *)
Theorem UpdateTask_invalid_priority (id title description : string)
  (priority : TaskPriority) (w : World) (t : Task) :
  id <> "" ->
  sqlite.select_by_id id (tasks w) = Some t ->
  Validate t = None ->
  priority <> "" ->
  ~ In priority [TaskPriorityLow; TaskPriorityMedium; TaskPriorityHigh] ->
  exists w',
    service.UpdateTask id title description priority w
      = (Err (fmt_Errorf "task validation failed" (errors_New "invalid task priority")), w')
    /\ tasks w' = tasks w
    /\ trace w' = trace w ++ [Sent (SelectByID id); Logged LevelWarn "Task validation failed"].
Proof.
  intros Hid Hsel Hvt Hp Hbad.
  apply Validate_None in Hvt. destruct Hvt as [Htitle [Hstatus _]].
  assert (Hv : Validate (service.merge t title description priority (clock w (clock_reads w)))
               = Some (errors_New "invalid task priority")).
  { apply Validate_priority; simpl.
    - destruct (String.eqb_spec title ""); assumption.
    - exact Hstatus.
    - destruct (String.eqb_spec priority "") as [E|_]; [contradiction | exact Hbad]. }
  unfold service.UpdateTask.
  destruct (String.eqb_spec id "") as [E|_]; [contradiction|].
  unfold bind at 1. rewrite GetByID_run, Hsel.
  unfold bind at 1. unfold time_Now at 1.
  change (clock (record (Sent (SelectByID id)) w)) with (clock w).
  change (clock_reads (record (Sent (SelectByID id)) w)) with (clock_reads w).
  rewrite Hv. eexists. split; [reflexivity|]. split; [reflexivity|].
  simpl. now rewrite <- app_assoc.
Qed.

Lemma UpdateTask_invalid_priority_witness :
  exists w',
    service.UpdateTask "a" "" "" "invalid-priority" demo_world_1
      = (Err (fmt_Errorf "task validation failed" (errors_New "invalid task priority")), w')
    /\ tasks w' = tasks demo_world_1
    /\ trace w' = trace demo_world_1
                  ++ [Sent (SelectByID "a"); Logged LevelWarn "Task validation failed"].
Proof.
  apply (UpdateTask_invalid_priority "a" "" "" "invalid-priority" demo_world_1 demo_task).
  - discriminate.
  - reflexivity.
  - reflexivity.
  - discriminate.
  - simpl. intros [H | [H | [H | []]]]; discriminate.
Defined.

(** ** The table keeps its constraints *)



(** ** What one call of the service does to the table *)

Lemma perform_shape (op : Op) (w : World) :
  clock (perform op w) = clock w
  /\ (clock_reads w <= clock_reads (perform op w))%nat
  /\ (tasks (perform op w) = tasks w
      \/ (exists t,
             tasks (perform op w) = tasks w ++ [t]
             /\ Validate t = None
             /\ sqlite.select_by_id (ID t) (tasks w) = None
             /\ CreatedAt t = clock w (clock_reads w)
             /\ UpdatedAt t = clock w (S (clock_reads w))
             /\ CompletedAt t = None
             /\ clock_reads (perform op w) = S (S (clock_reads w)))
      \/ (exists old new,
             sqlite.select_by_id (ID new) (tasks w) = Some old
             /\ tasks (perform op w) = rewritten new (tasks w)
             /\ clock_reads (perform op w) = S (clock_reads w)
             /\ ((exists title d p,
                     new = service.merge old title d p (clock w (clock_reads w))
                     /\ Validate new = None)
                 \/ (new = MarkCompleted (clock w (clock_reads w)) old
                     /\ Status old <> TaskStatusCompleted
                     /\ sqlite.check_ok new = true)))
      \/ (exists id,
             op = OpDeleteTask id
             /\ tasks (perform op w)
                = filter (fun r => negb (sqlite.has_id id r)) (tasks w))).
Proof.
  destruct op as [title d p | id | f | id title d p | id | id]; simpl.
  - destruct (CreateTask_cases title d p w) as [Hc [Hr H]].
    split; [exact Hc|]. split; [lia|].
    destruct H as [[e [_ Ht]] | [_ [Ht [Hv Hfresh]]]]; [now left|].
    right. left. eexists. split; [exact Ht|]. repeat split; assumption.
  - assert (H : service.GetTask id w = (fst (service.GetTask id w), w)
                \/ service.GetTask id w
                   = (fst (service.GetTask id w), record (Sent (SelectByID id)) w)
                \/ service.GetTask id w
                   = (fst (service.GetTask id w),
                      record (Logged LevelError "Failed to get task")
                             (record (Sent (SelectByID id)) w))).
    { unfold service.GetTask. destruct (String.eqb id ""); [now left|].
      unfold bind. rewrite GetByID_run.
      destruct (sqlite.select_by_id id (tasks w)); [right; left | right; right];
        reflexivity. }
    destruct H as [H | [H | H]]; rewrite H; simpl;
      (split; [reflexivity|]; split; [apply Nat.le_refl | now left]).
  - unfold service.ListTasks, bind. rewrite List_run. simpl.
    split; [reflexivity|]. split; [apply Nat.le_refl | now left].
  - destruct (UpdateTask_cases id title d p w) as [Hc H].
    split; [exact Hc|].
    destruct H as [[e [_ [Ht Hr]]] | [t [Hid [Hsel [Hv [_ [Ht Hr]]]]]]].
    + split; [exact Hr | now left].
    + split; [lia|]. right. right. left.
      exists t, (service.merge t title d p (clock w (clock_reads w))).
      destruct (select_by_id_some _ _ _ Hsel) as [_ Hidt].
      split; [simpl; now rewrite Hidt|]. split; [exact Ht|]. split; [exact Hr|].
      left. exists title, d, p. now split.
  - destruct (CompleteTask_cases id w) as [Hc H].
    split; [exact Hc|].
    destruct H as [[e [_ [Ht Hr]]]
                  | [[t [_ [_ [_ [_ [Ht Hr]]]]]]
                    | [t [Hid [Hsel [Hst [Hck [_ [Ht Hr]]]]]]]]].
    + split; [exact Hr | now left].
    + split; [rewrite Hr; apply Nat.le_refl | now left].
    + split; [lia|]. right. right. left.
      exists t, (MarkCompleted (clock w (clock_reads w)) t).
      destruct (select_by_id_some _ _ _ Hsel) as [_ Hidt].
      split; [simpl; now rewrite Hidt|]. split; [exact Ht|]. split; [exact Hr|].
      right. now repeat split.
  - unfold service.DeleteTask. destruct (String.eqb id "").
    { split; [reflexivity|]. split; [apply Nat.le_refl | now left]. }
    unfold bind. rewrite Delete_run. cbv zeta.
    destruct (Nat.eqb (sqlite.rows_matching id (tasks w)) 0); simpl;
      (split; [reflexivity|]; split; [apply Nat.le_refl|];
       right; right; right; exists id; now split).
Qed.

(** ** What no call of the service changes *)

(** A row a call finds under an id is still under that id after any call
    of the service, unless the call is [DeleteTask] of that id; it keeps
    its id and its [created_at], and once completed it stays completed
    with the same [completed_at]. *)
Theorem rows_keep_identity_and_completion (op : Op) (w : World) (id : string) (t : Task) :
  sqlite.select_by_id id (tasks w) = Some t ->
  (sqlite.select_by_id id (tasks (perform op w)) = None /\ op = OpDeleteTask id)
  \/ (exists t',
         sqlite.select_by_id id (tasks (perform op w)) = Some t'
         /\ ID t' = ID t
         /\ CreatedAt t' = CreatedAt t
         /\ (Status t = TaskStatusCompleted ->
             Status t' = TaskStatusCompleted /\ CompletedAt t' = CompletedAt t)).
Proof.
  intros Hsel.
  destruct (perform_shape op w) as [_ [_ H]].
  destruct H as [Ht | [[n [Ht _]] | [[old [new [Hold [Ht [_ Hnew]]]]] | [id' [Hop Ht]]]]];
    rewrite Ht.
  - right. exists t. now repeat split.
  - right. exists t. rewrite (select_by_id_app_found _ _ _ _ Hsel). now repeat split.
  - right. unfold rewritten. rewrite select_by_id_rewritten, Hsel.
    destruct (sqlite.has_id (ID new) t) eqn:E.
    + apply has_id_true in E.
      destruct (select_by_id_some _ _ _ Hsel) as [_ Hidt].
      assert (Heq : old = t) by (rewrite <- E, Hidt, Hsel in Hold; congruence).
      subst old. eexists. split; [reflexivity|].
      split; [reflexivity|]. split; [reflexivity|].
      intros Hst. destruct Hnew as [[title [d [p [-> _]]]] | [-> [Hne _]]].
      * now split.
      * contradiction.
    + exists t. now repeat split.
  - rewrite select_by_id_deleted.
    destruct (String.eqb_spec id' id) as [E|_].
    + left. subst id'. now split.
    + right. exists t. now repeat split.
Qed.

Lemma rows_keep_identity_and_completion_witness :
  (sqlite.select_by_id "a" (tasks (perform (OpUpdateTask "a" "Buy oat milk" "" "") demo_world_2))
   = None /\ OpUpdateTask "a" "Buy oat milk" "" "" = OpDeleteTask "a")
  \/ (exists t',
         sqlite.select_by_id "a"
           (tasks (perform (OpUpdateTask "a" "Buy oat milk" "" "") demo_world_2)) = Some t'
         /\ ID t' = ID (MarkCompleted 1002 demo_task)
         /\ CreatedAt t' = CreatedAt (MarkCompleted 1002 demo_task)
         /\ (Status (MarkCompleted 1002 demo_task) = TaskStatusCompleted ->
             Status t' = TaskStatusCompleted
             /\ CompletedAt t' = CompletedAt (MarkCompleted 1002 demo_task))).
Proof.
  apply (rows_keep_identity_and_completion (OpUpdateTask "a" "Buy oat milk" "" "")
           demo_world_2 "a" (MarkCompleted 1002 demo_task)).
  reflexivity.
Defined.

(** ** Stored rows are valid and their timestamps in order *)

Lemma NoDup_map_same {A B} (f : A -> B) (l : list A) (a b : A) :
  NoDup (map f l) -> In a l -> In b l -> f a = f b -> a = b.
Proof.
  induction l as [|x l IH]; simpl; intros Hnd Ha Hb Hf.
  - contradiction.
  - inversion Hnd as [|? ? Hnin Hnd']; subst.
    destruct Ha as [-> | Ha]; destruct Hb as [-> | Hb].
    + reflexivity.
    + exfalso. apply Hnin. rewrite Hf. now apply in_map.
    + exfalso. apply Hnin. rewrite <- Hf. now apply in_map.
    + now apply IH.
Qed.

Lemma Forall_rewritten_matched (P : Task -> Prop) (new : Task) (rows : list Task) :
  (forall r, In r rows -> ID r = ID new -> P r -> P (sqlite.set_columns new r)) ->
  Forall P rows -> Forall P (rewritten new rows).
Proof.
  intros Hset Hall. unfold rewritten. apply Forall_forall. intros x Hx.
  apply in_map_iff in Hx. destruct Hx as [r [Hr Hin]].
  rewrite Forall_forall in Hall.
  destruct (sqlite.has_id (ID new) r) eqn:E; subst x; [|auto].
  apply has_id_true in E. auto.
Qed.

Lemma stamps_ordered_later (w w' : World) (t : Task) :
  clock w' = clock w ->
  (clock_reads w <= clock_reads w')%nat ->
  stamps_ordered w t -> stamps_ordered w' t.
Proof.
  intros Hc Hr [k [j [Hkj [Hj [Ek [Ej Hm]]]]]].
  exists k, j. rewrite Hc. repeat split; try assumption. lia.
Qed.

Lemma history_ok_perform (op : Op) (w : World) :
  world_ok w -> history_ok w -> history_ok (perform op w).
Proof.
  intros [[Hnd _] _] [Hval Hst].
  destruct (perform_shape op w) as [Hc [Hr H]].
  assert (Hst' : Forall (stamps_ordered (perform op w)) (tasks w)).
  { eapply Forall_impl; [|exact Hst]. intros t. now apply stamps_ordered_later. }
  unfold history_ok.
  destruct H as [Ht | [[n [Ht [Hv [_ [Hcr [Hup [Hco Hr']]]]]]]
                      | [[old [new [Hold [Ht [Hr' Hnew]]]]] | [id' [_ Ht]]]]];
    rewrite Ht.
  - now split.
  - split.
    + apply Forall_app. split; [exact Hval | now repeat constructor].
    + apply Forall_app. split; [exact Hst'|].
      constructor; [|constructor].
      exists (clock_reads w), (S (clock_reads w)). rewrite Hc, Hr', Hco.
      repeat split; try assumption; lia.
  - destruct (select_by_id_some _ _ _ Hold) as [Hin Hido].
    rewrite Forall_forall in Hval. pose proof (Hval old Hin) as Hvo.
    split.
    + apply Forall_rewritten; [|now apply Forall_forall].
      intros r _ _. change (Validate new = None).
      destruct Hnew as [[title [d [p [_ Hv]]]] | [-> [_ _]]]; [exact Hv|].
      apply Validate_None in Hvo. apply Validate_None. simpl.
      destruct Hvo as [H1 [_ H3]]. split; [exact H1|]. split; [now right | exact H3].
    + apply Forall_rewritten_matched; [|exact Hst'].
      intros r Hr_in Hidr _.
      assert (r = old).
      { apply (NoDup_map_same ID (tasks w)); try assumption. congruence. }
      subst r.
      rewrite Forall_forall in Hst.
      destruct (Hst old Hin) as [k [j [Hkj [Hj [Ek [Ej Hm]]]]]].
      exists k, (clock_reads w). rewrite Hc, Hr'.
      split; [lia|]. split; [lia|]. split; [exact Ek|].
      destruct Hnew as [[title [d [p [-> _]]]] | [-> [_ _]]]; simpl.
      * split; [reflexivity|].
        destruct (CompletedAt old) as [c|]; [|exact I].
        destruct Hm as [m [Hkm [Hmj Ec]]]. exists m.
        split; [exact Hkm|]. split; [lia | exact Ec].
      * split; [reflexivity|]. exists (clock_reads w).
        split; [lia|]. split; [apply Nat.le_refl | reflexivity].
  - split; now apply Forall_kept.
Qed.

Lemma reachable_history_ok (w : World) : reachable w -> history_ok w.
Proof.
  induction 1 as [w Hempty | w op Hreach IH].
  - unfold history_ok. rewrite Hempty. split; constructor.
  - apply history_ok_perform; [now apply reachable_ok | exact IH].
Qed.

(** Every row of a table the service has filled passes [Validate]: its
    title is not empty and its status and priority are enumerated
    values. *)
Theorem stored_rows_are_valid (w : World) (t : Task) :
  reachable w -> In t (tasks w) ->
  Validate t = None
  /\ Title t <> ""
  /\ (Status t = TaskStatusPending \/ Status t = TaskStatusCompleted)
  /\ (Priority t = TaskPriorityLow \/ Priority t = TaskPriorityMedium
      \/ Priority t = TaskPriorityHigh).
Proof.
  intros Hreach Hin. destruct (reachable_history_ok _ Hreach) as [Hval _].
  rewrite Forall_forall in Hval. pose proof (Hval t Hin) as Hv.
  split; [exact Hv | now apply Validate_None].
Qed.

Lemma stored_rows_are_valid_witness :
  Validate (MarkCompleted 1002 demo_task) = None
  /\ Title (MarkCompleted 1002 demo_task) <> ""
  /\ (Status (MarkCompleted 1002 demo_task) = TaskStatusPending
      \/ Status (MarkCompleted 1002 demo_task) = TaskStatusCompleted)
  /\ (Priority (MarkCompleted 1002 demo_task) = TaskPriorityLow
      \/ Priority (MarkCompleted 1002 demo_task) = TaskPriorityMedium
      \/ Priority (MarkCompleted 1002 demo_task) = TaskPriorityHigh).
Proof.
  apply (stored_rows_are_valid demo_world_2 (MarkCompleted 1002 demo_task)).
  - unfold demo_world_2, demo_world_1.
    apply reachable_step. apply reachable_step. apply reachable_fresh. reflexivity.
  - left. reflexivity.
Defined.

(** With a clock that does not run backwards, every row of a table the
    service has filled has [created_at] not later than [updated_at], and
    a [completed_at], when present, between the two. *)
Theorem stored_timestamps_in_order (w : World) (t : Task) :
  reachable w -> clock_monotone w -> In t (tasks w) ->
  CreatedAt t <= UpdatedAt t
  /\ (forall c, CompletedAt t = Some c -> CreatedAt t <= c /\ c <= UpdatedAt t).
Proof.
  intros Hreach Hmono Hin. destruct (reachable_history_ok _ Hreach) as [_ Hst].
  rewrite Forall_forall in Hst.
  destruct (Hst t Hin) as [k [j [Hkj [Hj [Ek [Ej Hm]]]]]].
  rewrite Ek, Ej. split.
  - apply Hmono. lia.
  - intros c Hc. rewrite Hc in Hm. destruct Hm as [m [Hkm [Hmj ->]]].
    split; apply Hmono; lia.
Qed.

Lemma stored_timestamps_in_order_witness :
  CreatedAt (MarkCompleted 1002 demo_task) <= UpdatedAt (MarkCompleted 1002 demo_task)
  /\ (forall c, CompletedAt (MarkCompleted 1002 demo_task) = Some c ->
        CreatedAt (MarkCompleted 1002 demo_task) <= c
        /\ c <= UpdatedAt (MarkCompleted 1002 demo_task)).
Proof.
  apply (stored_timestamps_in_order demo_world_2 (MarkCompleted 1002 demo_task)).
  - unfold demo_world_2, demo_world_1.
    apply reachable_step. apply reachable_step. apply reachable_fresh. reflexivity.
  - intros n m Hnm. change (1000 + Z.of_nat n <= 1000 + Z.of_nat m). lia.
  - left. reflexivity.
Defined.

(** ** C3: what an update changes and what it leaves alone *)

(** C3, as the code has it.  In a world reached from an empty table, for
    a non-empty id under which there is a row: when the priority of the
    call is empty or one of low, medium and high, [UpdateTask] succeeds;
    the task it returns has the title, description and priority of the
    call where they are not empty and those of the row otherwise; its
    id, status, [created_at] and [completed_at] are those of the row; its
    [updated_at] is the reading of the clock taken by the call, while the
    row's was an earlier reading, so it is not earlier than the row's
    when the clock does not run backwards and later when the clock
    advances at every reading; the task is the row stored under the id
    afterwards, and the rows under other ids are as before.  In
    particular a call with only a title leaves priority, description,
    status and [created_at] as they were.  With any other priority
    [UpdateTask] fails and the table is as before. *)
Theorem UpdateTask_partial_update (id title description : string)
  (priority : TaskPriority) (w : World) (t : Task) :
  reachable w ->
  id <> "" ->
  sqlite.select_by_id id (tasks w) = Some t ->
  (priority = ""
   \/ In priority [TaskPriorityLow; TaskPriorityMedium; TaskPriorityHigh] ->
   exists t' w',
     service.UpdateTask id title description priority w = (Ok t', w')
     /\ Title t' = (if String.eqb title "" then Title t else title)
     /\ Description t' = (if String.eqb description "" then Description t else description)
     /\ Priority t' = (if String.eqb priority "" then Priority t else priority)
     /\ ID t' = ID t /\ Status t' = Status t
     /\ CreatedAt t' = CreatedAt t /\ CompletedAt t' = CompletedAt t
     /\ UpdatedAt t' = clock w (clock_reads w)
     /\ (exists k, (k < clock_reads w)%nat /\ UpdatedAt t = clock w k)
     /\ (clock_monotone w -> UpdatedAt t <= UpdatedAt t')
     /\ (clock_advances w -> UpdatedAt t < UpdatedAt t')
     /\ sqlite.select_by_id id (tasks w') = Some t'
     /\ (forall id', id' <> id ->
           sqlite.select_by_id id' (tasks w') = sqlite.select_by_id id' (tasks w))
     /\ (description = "" -> priority = "" ->
           Priority t' = Priority t /\ Description t' = Description t
           /\ Status t' = Status t /\ CreatedAt t' = CreatedAt t))
  /\ (priority <> "" ->
      ~ In priority [TaskPriorityLow; TaskPriorityMedium; TaskPriorityHigh] ->
      exists e w',
        service.UpdateTask id title description priority w = (Err e, w')
        /\ tasks w' = tasks w).
Proof.
  intros Hreach Hid Hsel.
  pose proof (reachable_ok _ Hreach) as Hw.
  destruct (reachable_history_ok _ Hreach) as [Hval _].
  destruct (select_by_id_some _ _ _ Hsel) as [Hin Hidt].
  rewrite Forall_forall in Hval. pose proof (Hval t Hin) as Hvt.
  pose proof (proj1 (Validate_None t) Hvt) as [Htitle [Hstatus Hprio]].
  destruct (select_consistent _ _ _ Hw Hsel) as [_ [_ [_ [k [Hk Ek]]]]].
  destruct (UpdateTask_found id title description priority w t Hid Hsel)
    as [w' [Hc [Hr H]]].
  split.
  - intros Hp.
    assert (Hv : Validate (service.merge t title description priority
                             (clock w (clock_reads w))) = None).
    { apply Validate_None. simpl. split; [|split].
      - destruct (String.eqb_spec title ""); assumption.
      - exact Hstatus.
      - destruct (String.eqb_spec priority "") as [E|E]; [exact Hprio|].
        destruct Hp as [Hp | Hp]; [contradiction|].
        simpl in Hp. destruct Hp as [Hp | [Hp | [Hp | []]]]; auto. }
    rewrite Hv in H. destruct H as [Hrun Htasks].
    eexists. exists w'. split; [exact Hrun|]. simpl.
    repeat (split; [reflexivity|]).
    split; [exists k; now split|].
    split; [intros Hm; rewrite Ek; apply Hm; lia|].
    split; [intros Ha; rewrite Ek; now apply Ha|].
    assert (Hsel' : sqlite.select_by_id
                      (ID (service.merge t title description priority
                             (clock w (clock_reads w)))) (tasks w) = Some t).
    { simpl. now rewrite Hidt. }
    split.
    { rewrite Htasks. rewrite <- Hidt at 1.
      change (ID t) with (ID (service.merge t title description priority
                                (clock w (clock_reads w)))).
      now rewrite (select_rewritten_same _ _ _ Hsel'). }
    split.
    { intros id' Hne. rewrite Htasks. apply select_rewritten_other.
      simpl. now rewrite Hidt. }
    intros -> ->. repeat split.
  - intros Hne Hbad.
    assert (Hv : Validate (service.merge t title description priority
                             (clock w (clock_reads w)))
                 = Some (errors_New "invalid task priority")).
    { apply Validate_priority; simpl.
      - destruct (String.eqb_spec title ""); assumption.
      - exact Hstatus.
      - destruct (String.eqb_spec priority "") as [E|_]; [contradiction | exact Hbad]. }
    rewrite Hv in H. destruct H as [Hrun Htasks].
    eexists. exists w'. split; [exact Hrun | exact Htasks].
Qed.

Lemma UpdateTask_partial_update_witness :
  exists t' w',
    service.UpdateTask "a" "Buy oat milk" "" "" demo_world_1 = (Ok t', w')
    /\ Title t' = "Buy oat milk"
    /\ Description t' = Description demo_task
    /\ Priority t' = Priority demo_task
    /\ ID t' = ID demo_task /\ Status t' = Status demo_task
    /\ CreatedAt t' = CreatedAt demo_task /\ CompletedAt t' = CompletedAt demo_task
    /\ UpdatedAt t' = clock demo_world_1 (clock_reads demo_world_1)
    /\ (exists k, (k < clock_reads demo_world_1)%nat
                  /\ UpdatedAt demo_task = clock demo_world_1 k)
    /\ (clock_monotone demo_world_1 -> UpdatedAt demo_task <= UpdatedAt t')
    /\ (clock_advances demo_world_1 -> UpdatedAt demo_task < UpdatedAt t')
    /\ sqlite.select_by_id "a" (tasks w') = Some t'.
Proof.
  assert (Hreach : reachable demo_world_1).
  { unfold demo_world_1. apply reachable_step. apply reachable_fresh. reflexivity. }
  assert (Hne : "a" <> "") by discriminate.
  assert (Hsel : sqlite.select_by_id "a" (tasks demo_world_1) = Some demo_task)
    by reflexivity.
  destruct (UpdateTask_partial_update "a" "Buy oat milk" "" "" demo_world_1 demo_task
              Hreach Hne Hsel) as [Hok _].
  destruct (Hok (or_introl eq_refl))
    as [t' [w' [Hrun [H1 [H2 [H3 [H4 [H5 [H6 [H7 [H8 [H9 [H10 [H11 [H12 _]]]]]]]]]]]]]]].
  exists t', w'.
  split; [exact Hrun|]. split; [exact H1|]. split; [exact H2|]. split; [exact H3|].
  split; [exact H4|]. split; [exact H5|]. split; [exact H6|]. split; [exact H7|].
  split; [exact H8|]. split; [exact H9|]. split; [exact H10|].
  split; [exact H11 | exact H12].
Defined.

(** C3, as stated, fails in two ways.  With a clock that shows the same
    instant twice, a successful update leaves [updated_at] equal to what
    it was, not later; and an update call with a priority that is none
    of low, medium and high applies none of the fields it supplies. *)
Lemma UpdateTask_not_always_later :
  (exists t t' w',
      reachable frozen_world_1
      /\ sqlite.select_by_id "a" (tasks frozen_world_1) = Some t
      /\ service.UpdateTask "a" "Buy oat milk" "" "" frozen_world_1 = (Ok t', w')
      /\ ~ UpdatedAt t < UpdatedAt t')
  /\ (exists t e w',
        reachable demo_world_1
        /\ sqlite.select_by_id "a" (tasks demo_world_1) = Some t
        /\ service.UpdateTask "a" "Buy oat milk" "" "urgent" demo_world_1 = (Err e, w')
        /\ sqlite.select_by_id "a" (tasks w') = Some t
        /\ Title t <> "Buy oat milk").
Proof.
  split.
  - eexists. eexists. eexists. split; [|split; [|split]].
    + unfold frozen_world_1. apply reachable_step. apply reachable_fresh. reflexivity.
    + vm_compute. reflexivity.
    + vm_compute. reflexivity.
    + vm_compute. discriminate.
  - eexists. eexists. eexists. split; [|split; [|split; [|split]]].
    + unfold demo_world_1. apply reachable_step. apply reachable_fresh. reflexivity.
    + vm_compute. reflexivity.
    + vm_compute. reflexivity.
    + vm_compute. reflexivity.
    + vm_compute. discriminate.
Qed.

(** ** The migration procedure, step by step *)

Lemma has_name_app {A} (n : string) (l more : list (string * A)) :
  sqlite.has_name n l = true -> sqlite.has_name n (l ++ more) = true.
Proof.
  unfold sqlite.has_name. rewrite existsb_app. intros ->. reflexivity.
Qed.

Lemma has_name_last {A} (n : string) (l : list (string * A)) (a : A) :
  sqlite.has_name n (l ++ [(n, a)]) = true.
Proof.
  unfold sqlite.has_name. rewrite existsb_app. simpl.
  rewrite String.eqb_refl. apply orb_true_iff. right. reflexivity.
Qed.

Lemma exec_ddl_installs (s : sqlite.DDL) (ts ts' : list sqlite.TableDef)
  (ixs ixs' : list sqlite.IndexDef) :
  sqlite.exec_ddl s ts ixs = inr (ts', ixs') ->
  installed s ts' ixs'
  /\ (forall s0, installed s0 ts ixs -> installed s0 ts' ixs').
Proof.
  intros He. destruct s as [n c | n t c]; simpl in He |- *.
  - destruct (sqlite.has_name n ts) eqn:Hn.
    + injection He as <- <-. split; [exact Hn | auto].
    + destruct (sqlite.has_name n ixs); [discriminate|].
      injection He as <- <-. split; [apply has_name_last|].
      intros [m c0 | m t0 c0]; simpl; [apply has_name_app | auto].
  - destruct (sqlite.find_table t ts); [|discriminate].
    destruct (sqlite.has_name n ts); [discriminate|].
    destruct (sqlite.has_name n ixs) eqn:Hn.
    + injection He as <- <-. split; [exact Hn | auto].
    + destruct (sqlite.has_column c l); [|discriminate].
      injection He as <- <-. split; [apply has_name_last|].
      intros [m c0 | m t0 c0]; simpl; [auto | apply has_name_app].
Qed.

Lemma exec_script_installs (script : list sqlite.DDL) (ts ts' : list sqlite.TableDef)
  (ixs ixs' : list sqlite.IndexDef) :
  sqlite.exec_script script ts ixs = inr (ts', ixs') ->
  Forall (fun s => installed s ts' ixs') script
  /\ (forall s0, installed s0 ts ixs -> installed s0 ts' ixs').
Proof.
  revert ts ixs. induction script as [|s script IH]; simpl; intros ts ixs He.
  - injection He as <- <-. split; [constructor | auto].
  - destruct (sqlite.exec_ddl s ts ixs) as [e|[ts1 ixs1]] eqn:E; [discriminate|].
    destruct (exec_ddl_installs _ _ _ _ _ E) as [Hs Hmono].
    destruct (IH _ _ He) as [Hall Hmono'].
    split; [constructor; auto | auto].
Qed.

(** One run of the procedure with the shipped migration, written out. *)
Lemma runMigrations_run (w : World) :
  storage.runMigrations w =
    let w1 := record (Sent CreateLedger) w in
    match sqlite.exec_ddl
            (sqlite.CREATE_TABLE_IF_NOT_EXISTS "migrations" ["version"; "applied_at"])
            (tables w) (indexes w) with
    | inl e =>
        (Some (fmt_Errorf "failed to create migrations table" (driver_error e)), w1)
    | inr (ts, ixs) =>
        let w2 := record (Sent SelectLedger) (set_catalogue ts ixs w1) in
        match sqlite.find_table "migrations" ts with
        | None =>
            (Some (fmt_Errorf "failed to get applied migrations"
                     (driver_error (SQLError "no such table"))), w2)
        | Some cols =>
            if sqlite.has_column "version" cols then
              storage.applyPending (ledger w) ["001_create_tasks_table"] w2
            else
              (Some (fmt_Errorf "failed to get applied migrations"
                       (driver_error (SQLError "no such column"))), w2)
        end
    end.
Proof.
  unfold storage.runMigrations, bind, sql.ExecContext_CreateLedger.
  change (tables (record (Sent CreateLedger) w)) with (tables w).
  change (indexes (record (Sent CreateLedger) w)) with (indexes w).
  cbv zeta.
  destruct (sqlite.exec_ddl _ (tables w) (indexes w)) as [e|[ts ixs]]; [reflexivity|].
  unfold storage.getAppliedMigrations, bind, sql.QueryContext_SelectLedger.
  change (tables (record (Sent SelectLedger)
                    (set_catalogue ts ixs (record (Sent CreateLedger) w)))) with ts.
  destruct (sqlite.find_table "migrations" ts) as [cols|]; [|reflexivity].
  destruct (sqlite.has_column "version" cols); reflexivity.
Qed.

Lemma applyPending_one (applied : list string) (v : string) (w : World) :
  storage.applyPending applied [v] w =
    if storage.is_applied applied v then
      (None, record (Logged LevelDebug "Migration already applied") w)
    else
      let w0 := record (Logged LevelInfo "Applying migration") w in
      let w1 := record (Sent (Script (storage.lookup v storage.migrations)))
                       (record TxBegin w0) in
      match sqlite.exec_script (storage.lookup v storage.migrations)
              (tables w) (indexes w) with
      | inl e =>
          (Some (fmt_Errorf (String.append "failed to execute migration " v)
                            (driver_error e)),
           restore (snapshot w0) (record TxRollback w1))
      | inr (ts, ixs) =>
          let w2 := record (Sent (RecordVersion v)) (set_catalogue ts ixs w1) in
          match sqlite.find_table "migrations" ts with
          | None =>
              (Some (fmt_Errorf (String.append "failed to record migration " v)
                                (driver_error (SQLError "no such table"))),
               restore (snapshot w0) (record TxRollback w2))
          | Some cols =>
              if negb (sqlite.has_column "version" cols) then
                (Some (fmt_Errorf (String.append "failed to record migration " v)
                                  (driver_error (SQLError "no such column"))),
                 restore (snapshot w0) (record TxRollback w2))
              else if existsb (String.eqb v) (ledger w) then
                (Some (fmt_Errorf (String.append "failed to record migration " v)
                                  (driver_error ConstraintPrimaryKey)),
                 restore (snapshot w0) (record TxRollback w2))
              else
                (None,
                 record (Logged LevelInfo "Migration applied successfully")
                   (record TxCommit (set_ledger (ledger w ++ [v]) w2)))
          end
      end.
Proof.
  cbn [storage.applyPending].
  destruct (storage.is_applied applied v); [reflexivity|].
  unfold bind, logger, sql.BeginTx, sql.ExecContext_Script. cbv zeta.
  change (tables (record (Sent (Script (storage.lookup v storage.migrations)))
                    (record TxBegin (record (Logged LevelInfo "Applying migration") w))))
    with (tables w).
  change (indexes (record (Sent (Script (storage.lookup v storage.migrations)))
                     (record TxBegin (record (Logged LevelInfo "Applying migration") w))))
    with (indexes w).
  destruct (sqlite.exec_script _ (tables w) (indexes w)) as [e|[ts ixs]]; [reflexivity|].
  unfold sql.ExecContext_RecordVersion. cbv zeta.
  match goal with
  | |- context [sqlite.find_table "migrations" (tables ?x)] =>
      change (tables x) with ts; change (ledger x) with (ledger w)
  end.
  destruct (sqlite.find_table "migrations" ts) as [cols|]; [|reflexivity].
  destruct (sqlite.has_column "version" cols); [|reflexivity].
  cbn [negb].
  destruct (existsb (String.eqb v) (ledger w)); reflexivity.
Qed.

(** ** A migration that fails, a migration that succeeds *)

(** When [runMigrations] returns an error, the rows, the indexes and the
    ledger are as before the run, and the tables too, but for the ledger
    table, which may have been created: whatever the script of the
    migration had done before it failed was rolled back.  The run ends
    with the step that failed, or with the rollback; it commits
    nothing. *)
Theorem runMigrations_failure_rolls_back (w w' : World) (e : error) :
  storage.runMigrations w = (Some e, w') ->
  tasks w' = tasks w
  /\ indexes w' = indexes w
  /\ ledger w' = ledger w
  /\ (tables w' = tables w
      \/ tables w' = tables w ++ [("migrations", ["version"; "applied_at"])])
  /\ exists es, In es failed_run_events /\ trace w' = trace w ++ es.
Proof.
  rewrite runMigrations_run. cbv zeta.
  destruct (sqlite.exec_ddl _ (tables w) (indexes w)) as [e0|[ts ixs]] eqn:D.
  { intros H. injection H as _ <-.
    repeat (split; [reflexivity|]). split; [now left|].
    eexists. split; [left; reflexivity | reflexivity]. }
  assert (Hcat : ixs = indexes w
                 /\ (ts = tables w
                     \/ ts = tables w ++ [("migrations", ["version"; "applied_at"])])).
  { unfold sqlite.exec_ddl in D.
    destruct (sqlite.has_name "migrations" (tables w)).
    - injection D as <- <-. split; [reflexivity | now left].
    - destruct (sqlite.has_name "migrations" (indexes w)); [discriminate|].
      injection D as <- <-. split; [reflexivity | now right]. }
  destruct Hcat as [-> Hts].
  assert (Hsel : forall e1 : error,
             (Some e1,
              record (Sent SelectLedger)
                (set_catalogue ts (indexes w) (record (Sent CreateLedger) w)))
             = (Some e, w') ->
             tasks w' = tasks w /\ indexes w' = indexes w /\ ledger w' = ledger w
             /\ (tables w' = tables w
                 \/ tables w' = tables w ++ [("migrations", ["version"; "applied_at"])])
             /\ exists es, In es failed_run_events /\ trace w' = trace w ++ es).
  { intros e1 H. injection H as _ <-.
    repeat (split; [reflexivity|]). split; [exact Hts|].
    eexists. split; [right; left; reflexivity|].
    simpl. now rewrite <- app_assoc. }
  destruct (sqlite.find_table "migrations" ts) as [cols|] eqn:F; [|apply Hsel].
  destruct (sqlite.has_column "version" cols) eqn:C; [|apply Hsel].
  rewrite applyPending_one. cbv zeta.
  destruct (storage.is_applied (ledger w) "001_create_tasks_table"); [discriminate|].
  match goal with
  | |- context [sqlite.exec_script ?s ?a ?b] =>
      change a with ts; change b with (indexes w);
      destruct (sqlite.exec_script s ts (indexes w)) as [e1|[ts1 ixs1]]
  end.
  { intros H. injection H as _ <-.
    repeat (split; [reflexivity|]). split; [exact Hts|].
    eexists. split; [right; right; left; reflexivity|].
    simpl. repeat rewrite <- app_assoc. reflexivity. }
  assert (Hrec : forall e1 : error,
             (Some e1,
              restore
                (snapshot
                   (record (Logged LevelInfo "Applying migration")
                      (record (Sent SelectLedger)
                         (set_catalogue ts (indexes w) (record (Sent CreateLedger) w)))))
                (record TxRollback
                   (record (Sent (RecordVersion "001_create_tasks_table"))
                      (set_catalogue ts1 ixs1
                         (record
                            (Sent (Script (storage.lookup "001_create_tasks_table"
                                             storage.migrations)))
                            (record TxBegin
                               (record (Logged LevelInfo "Applying migration")
                                  (record (Sent SelectLedger)
                                     (set_catalogue ts (indexes w)
                                        (record (Sent CreateLedger) w))))))))))
             = (Some e, w') ->
             tasks w' = tasks w /\ indexes w' = indexes w /\ ledger w' = ledger w
             /\ (tables w' = tables w
                 \/ tables w' = tables w ++ [("migrations", ["version"; "applied_at"])])
             /\ exists es, In es failed_run_events /\ trace w' = trace w ++ es).
  { intros e1 H. injection H as _ <-.
    repeat (split; [reflexivity|]). split; [exact Hts|].
    eexists. split; [right; right; right; left; reflexivity|].
    simpl. repeat rewrite <- app_assoc. reflexivity. }
  destruct (sqlite.find_table "migrations" ts1) as [cols1|]; [|apply Hrec].
  destruct (sqlite.has_column "version" cols1); [|apply Hrec]. cbn [negb].
  match goal with
  | |- context [existsb (String.eqb "001_create_tasks_table") ?l] =>
      destruct (existsb (String.eqb "001_create_tasks_table") l)
  end; [apply Hrec | discriminate].
Qed.

Lemma runMigrations_failure_rolls_back_witness :
  tasks (snd (storage.runMigrations old_shape_world)) = tasks old_shape_world
  /\ indexes (snd (storage.runMigrations old_shape_world)) = indexes old_shape_world
  /\ ledger (snd (storage.runMigrations old_shape_world)) = ledger old_shape_world
  /\ (tables (snd (storage.runMigrations old_shape_world)) = tables old_shape_world
      \/ tables (snd (storage.runMigrations old_shape_world))
         = tables old_shape_world ++ [("migrations", ["version"; "applied_at"])])
  /\ exists es, In es failed_run_events
                /\ trace (snd (storage.runMigrations old_shape_world))
                   = trace old_shape_world ++ es.
Proof.
  apply (runMigrations_failure_rolls_back old_shape_world
           (snd (storage.runMigrations old_shape_world))
           (fmt_Errorf "failed to execute migration 001_create_tasks_table"
              (driver_error (SQLError "no such column")))).
  vm_compute. reflexivity.
Defined.

(** When [runMigrations] returns nil the rows are as before and the
    shipped version is in the ledger.  If the version was not in the
    ledger before, the run has added it as the last row, and a table
    named [tasks] and indexes named [idx_tasks_status],
    [idx_tasks_priority] and [idx_tasks_created_at] are in the
    catalogue. *)
Theorem runMigrations_success_installs (w w' : World) :
  storage.runMigrations w = (None, w') ->
  tasks w' = tasks w
  /\ In "001_create_tasks_table" (ledger w')
  /\ (~ In "001_create_tasks_table" (ledger w) ->
      ledger w' = ledger w ++ ["001_create_tasks_table"]
      /\ sqlite.has_name "tasks" (tables w') = true
      /\ sqlite.has_name "idx_tasks_status" (indexes w') = true
      /\ sqlite.has_name "idx_tasks_priority" (indexes w') = true
      /\ sqlite.has_name "idx_tasks_created_at" (indexes w') = true).
Proof.
  rewrite runMigrations_run. cbv zeta.
  destruct (sqlite.exec_ddl _ (tables w) (indexes w)) as [e0|[ts ixs]]; [discriminate|].
  destruct (sqlite.find_table "migrations" ts) as [cols|]; [|discriminate].
  destruct (sqlite.has_column "version" cols); [|discriminate].
  rewrite applyPending_one. cbv zeta.
  destruct (storage.is_applied (ledger w) "001_create_tasks_table") eqn:A.
  { intros H. injection H as <-. apply is_applied_In in A.
    split; [reflexivity|]. split; [exact A | contradiction]. }
  match goal with
  | |- context [sqlite.exec_script ?s ?a ?b] =>
      change a with ts; change b with ixs;
      destruct (sqlite.exec_script s ts ixs) as [e1|[ts1 ixs1]] eqn:X
  end; [discriminate|].
  destruct (sqlite.find_table "migrations" ts1) as [cols1|]; [|discriminate].
  destruct (sqlite.has_column "version" cols1); [|discriminate]. cbn [negb].
  match goal with
  | |- context [existsb (String.eqb "001_create_tasks_table") ?l] =>
      change l with (ledger w);
      destruct (existsb (String.eqb "001_create_tasks_table") (ledger w))
  end; [discriminate|].
  intros H. injection H as <-.
  split; [reflexivity|]. split.
  { simpl. apply in_or_app. right. now left. }
  intros _. split; [reflexivity|].
  apply exec_script_installs in X. destruct X as [Hall _].
  inversion Hall as [|? ? H1 Hall1]; subst.
  inversion Hall1 as [|? ? H2 Hall2]; subst.
  inversion Hall2 as [|? ? H3 Hall3]; subst.
  inversion Hall3 as [|? ? H4 _]; subst.
  repeat split; assumption.
Qed.

Lemma runMigrations_success_installs_witness :
  ledger (snd (storage.runMigrations demo_world))
  = ledger demo_world ++ ["001_create_tasks_table"]
  /\ sqlite.has_name "tasks" (tables (snd (storage.runMigrations demo_world))) = true
  /\ sqlite.has_name "idx_tasks_status" (indexes (snd (storage.runMigrations demo_world)))
     = true
  /\ sqlite.has_name "idx_tasks_priority" (indexes (snd (storage.runMigrations demo_world)))
     = true
  /\ sqlite.has_name "idx_tasks_created_at"
       (indexes (snd (storage.runMigrations demo_world))) = true.
Proof.
  destruct (runMigrations_success_installs demo_world
              (snd (storage.runMigrations demo_world))) as [_ [_ H]].
  - vm_compute. reflexivity.
  - apply H. intros [].
Defined.

(** ** Package config: environment, file, validation *)

Lemma overrides_lookup (os : config.OS) (keys : list string) (key : string) :
  config.map_lookup (config.collect_overrides os keys) key
  = if existsb (String.eqb key) keys then
      if String.eqb (config.Getenv os key) "" then None else Some (config.Getenv os key)
    else None.
Proof.
  induction keys as [|k keys IH]; [reflexivity|].
  cbn [config.collect_overrides existsb].
  destruct (String.eqb (config.Getenv os k) "") eqn:G.
  - rewrite IH. destruct (String.eqb_spec key k) as [E|E]; cbn [orb].
    + subst k. rewrite G. now destruct (existsb (String.eqb key) keys).
    + reflexivity.
  - cbn [config.map_lookup]. destruct (String.eqb_spec key k) as [E|E]; cbn [orb].
    + subst k. now rewrite String.eqb_refl, G.
    + destruct (String.eqb_spec k key) as [E'|_]; [congruence | exact IH].
Qed.

Lemma reapply_set (os : config.OS) (key current : string) :
  existsb (String.eqb key) config.envVars = true ->
  config.reapply (config.collect_overrides os config.envVars) key current
  = if String.eqb (config.Getenv os key) "" then current else config.Getenv os key.
Proof.
  intros Hk. unfold config.reapply. rewrite overrides_lookup, Hk.
  now destruct (String.eqb (config.Getenv os key) "").
Qed.

Lemma Validate_rest_result (c c' : config.Config) :
  config.Validate_rest c = (None, c') ->
  c' = c
  /\ (config.Type' (config.Database c) = "postgres" ->
      config.Host (config.Database c) <> ""
      /\ config.Name (config.Database c) <> ""
      /\ config.User (config.Database c) <> "")
  /\ In (config.Level (config.Logging c)) config.validLogLevels
  /\ In (config.Format (config.Logging c)) config.validLogFormats.
Proof.
  unfold config.Validate_rest.
  destruct (String.eqb_spec (config.Type' (config.Database c)) "postgres") as [Ep|Ep];
    cbn [andb].
  - destruct (String.eqb_spec (config.Host (config.Database c)) "") as [Eh|Eh];
      [discriminate|].
    destruct (String.eqb_spec (config.Name (config.Database c)) "") as [En|En];
      [discriminate|].
    destruct (String.eqb_spec (config.User (config.Database c)) "") as [Eu|Eu];
      [discriminate|].
    destruct (config.is_key config.validLogLevels _) eqn:L; [|discriminate].
    destruct (config.is_key config.validLogFormats _) eqn:F; [|discriminate].
    cbn [negb]. intros H. injection H as <-.
    unfold config.is_key in L, F. apply existsb_exists in L, F.
    destruct L as [x [Hx Ex]]. destruct F as [y [Hy Ey]].
    apply String.eqb_eq in Ex, Ey. subst x y. now repeat split.
  - destruct (config.is_key config.validLogLevels _) eqn:L; [|discriminate].
    destruct (config.is_key config.validLogFormats _) eqn:F; [|discriminate].
    cbn [negb]. intros H. injection H as <-.
    unfold config.is_key in L, F. apply existsb_exists in L, F.
    destruct L as [x [Hx Ex]]. destruct F as [y [Hy Ey]].
    apply String.eqb_eq in Ex, Ey. subst x y.
    split; [reflexivity|]. split; [contradiction|]. now split.
Qed.

Lemma Validate_rest_again (c c' : config.Config) :
  config.Validate_rest c = (None, c') -> config.Validate_rest c' = (None, c').
Proof.
  intros H. destruct (Validate_rest_result _ _ H) as [-> _]. exact H.
Qed.

Lemma Validate_accepts_inv (os : config.OS) (c c' : config.Config) :
  config.Validate os c = (None, c') ->
  (config.Type' (config.Database c') = "sqlite"
   \/ config.Type' (config.Database c') = "postgres")
  /\ In (config.Level (config.Logging c')) config.validLogLevels
  /\ In (config.Format (config.Logging c')) config.validLogFormats
  /\ (config.Type' (config.Database c') = "postgres" ->
      config.Host (config.Database c') <> ""
      /\ config.Name (config.Database c') <> ""
      /\ config.User (config.Database c') <> "")
  /\ (c' = c
      \/ (config.Type' (config.Database c) = "sqlite"
          /\ config.Path (config.Database c) = ""
          /\ exists homeDir,
               config.UserHomeDir os = Ok homeDir
               /\ c' = config.set_Path
                         (config.filepath_Join os [homeDir; ".task-manager"; "tasks.db"]) c))
  /\ config.Validate os c' = (None, c').
Proof.
  unfold config.Validate at 1.
  destruct (String.eqb_spec (config.Type' (config.Database c)) "sqlite") as [Es|Es];
    destruct (String.eqb_spec (config.Type' (config.Database c)) "postgres") as [Ep|Ep];
    cbn [negb andb]; try discriminate.
  - rewrite Es in Ep. discriminate.
  - destruct (String.eqb_spec (config.Path (config.Database c)) "") as [Epath|Epath].
    + destruct (config.UserHomeDir os) as [homeDir|err] eqn:Hhome; [|discriminate].
      intros H. pose proof (Validate_rest_result _ _ H) as [-> [_ [Hl Hf]]].
      cbn [config.set_Path config.Database config.Logging config.Type'
           config.Host config.Name config.User].
      split; [now left|]. split; [exact Hl|]. split; [exact Hf|].
      split; [intros E; rewrite Es in E; discriminate|].
      split; [right; split; [exact Es|]; split; [exact Epath|]; now exists homeDir|].
      unfold config.Validate. cbn [config.set_Path config.Database config.Type' config.Path].
      rewrite Es. cbn [String.eqb Ascii.eqb Bool.eqb negb andb].
      destruct (String.eqb_spec
                  (config.filepath_Join os [homeDir; ".task-manager"; "tasks.db"]) "")
        as [Ej|Ej].
      * rewrite Hhome.
        assert (Hsame : config.set_Path
                          (config.filepath_Join os [homeDir; ".task-manager"; "tasks.db"])
                          (config.set_Path
                             (config.filepath_Join os [homeDir; ".task-manager"; "tasks.db"])
                             c)
                        = config.set_Path
                            (config.filepath_Join os [homeDir; ".task-manager"; "tasks.db"])
                            c) by reflexivity.
        rewrite Hsame. now rewrite H.
      * exact H.
    + intros H. pose proof (Validate_rest_result _ _ H) as [-> [_ [Hl Hf]]].
      split; [now left|]. split; [exact Hl|]. split; [exact Hf|].
      split; [intros E; rewrite Es in E; discriminate|].
      split; [now left|].
      unfold config.Validate.
      destruct (String.eqb_spec (config.Type' (config.Database c)) "sqlite");
        [|contradiction].
      destruct (String.eqb_spec (config.Path (config.Database c)) "");
        [contradiction|].
      cbn [negb andb]. exact H.
  - intros H. pose proof (Validate_rest_result _ _ H) as [-> [Hpg [Hl Hf]]].
    split; [now right|]. split; [exact Hl|]. split; [exact Hf|].
    split; [exact Hpg|]. split; [now left|].
    unfold config.Validate.
    destruct (String.eqb_spec (config.Type' (config.Database c)) "sqlite");
      [contradiction|].
    destruct (String.eqb_spec (config.Type' (config.Database c)) "postgres");
      [|contradiction].
    cbn [negb andb]. exact H.
Qed.



Lemma Load_Ok_inv (os : config.OS) (cfg : config.Config) :
  config.Load os = Ok cfg ->
  exists c1,
    config.Validate os
      (config.reapply_overrides os (config.collect_overrides os config.envVars) c1)
    = (None, cfg).
Proof.
  unfold config.Load. cbv zeta.
  match goal with
  | |- context [fst ?l] => destruct l as [ferr c1]
  end.
  cbn [fst snd].
  destruct (config.Validate os _) as [[e|] c'] eqn:V.
  - destruct ferr as [e0|]; [destruct (negb _)|]; discriminate.
  - intros H. exists c1.
    assert (c' = cfg).
    { destruct ferr as [e0|]; [destruct (negb _)|]; congruence. }
    now subst c'.
Qed.

(** What [Load] returns has passed [Validate], and validating it again
    accepts it unchanged. *)
Theorem Load_returns_valid (os : config.OS) (cfg : config.Config) :
  config.Load os = Ok cfg ->
  (config.Type' (config.Database cfg) = "sqlite"
   \/ config.Type' (config.Database cfg) = "postgres")
  /\ In (config.Level (config.Logging cfg)) config.validLogLevels
  /\ In (config.Format (config.Logging cfg)) config.validLogFormats
  /\ (config.Type' (config.Database cfg) = "postgres" ->
      config.Host (config.Database cfg) <> ""
      /\ config.Name (config.Database cfg) <> ""
      /\ config.User (config.Database cfg) <> "")
  /\ config.Validate os cfg = (None, cfg).
Proof.
  intros H. destruct (Load_Ok_inv _ _ H) as [c1 Hv].
  destruct (Validate_accepts_inv _ _ _ Hv) as [H1 [H2 [H3 [H4 [_ H6]]]]].
  repeat split; try assumption; now apply H4.
Qed.

Lemma Load_returns_valid_witness :
  config.Validate demo_os
    (config.mkConfig
       (config.mkDatabaseConfig "sqlite" "/tmp/env-override.db" "localhost" 5432
          "taskmanager" "" "" "disable")
       (config.mkLoggingConfig "debug" "text"))
  = (None,
     config.mkConfig
       (config.mkDatabaseConfig "sqlite" "/tmp/env-override.db" "localhost" 5432
          "taskmanager" "" "" "disable")
       (config.mkLoggingConfig "debug" "text")).
Proof.
  apply (Load_returns_valid demo_os).
  vm_compute. reflexivity.
Defined.

(** Whatever the configuration file says, a setting whose environment
    variable is not empty has, in what [Load] returns, the value of the
    variable; for the port, the number read from the variable when it
    reads as one. *)
Theorem Load_environment_wins (os : config.OS) (cfg : config.Config) :
  config.Load os = Ok cfg ->
  (config.Getenv os "DB_TYPE" <> "" ->
     config.Type' (config.Database cfg) = config.Getenv os "DB_TYPE")
  /\ (config.Getenv os "DB_PATH" <> "" ->
      config.Path (config.Database cfg) = config.Getenv os "DB_PATH")
  /\ (config.Getenv os "DB_HOST" <> "" ->
      config.Host (config.Database cfg) = config.Getenv os "DB_HOST")
  /\ (config.Getenv os "DB_NAME" <> "" ->
      config.Name (config.Database cfg) = config.Getenv os "DB_NAME")
  /\ (config.Getenv os "DB_USER" <> "" ->
      config.User (config.Database cfg) = config.Getenv os "DB_USER")
  /\ (config.Getenv os "DB_PASSWORD" <> "" ->
      config.Password (config.Database cfg) = config.Getenv os "DB_PASSWORD")
  /\ (config.Getenv os "DB_SSL_MODE" <> "" ->
      config.SSLMode (config.Database cfg) = config.Getenv os "DB_SSL_MODE")
  /\ (config.Getenv os "LOG_LEVEL" <> "" ->
      config.Level (config.Logging cfg) = config.Getenv os "LOG_LEVEL")
  /\ (config.Getenv os "LOG_FORMAT" <> "" ->
      config.Format (config.Logging cfg) = config.Getenv os "LOG_FORMAT")
  /\ (config.Getenv os "DB_PORT" <> "" ->
      forall n, config.Sscanf_d os (config.Getenv os "DB_PORT") = Some n ->
                config.Port (config.Database cfg) = n).
Proof.
  intros H. destruct (Load_Ok_inv _ _ H) as [c1 Hv].
  set (m := config.collect_overrides os config.envVars) in *.
  assert (Hset : forall key current,
             existsb (String.eqb key) config.envVars = true ->
             config.Getenv os key <> "" ->
             config.reapply m key current = config.Getenv os key).
  { intros key current Hk Hne. unfold m. rewrite (reapply_set _ _ _ Hk).
    destruct (String.eqb_spec (config.Getenv os key) ""); [contradiction | reflexivity]. }
  destruct (Validate_accepts_inv _ _ _ Hv) as [_ [_ [_ [_ [Hc _]]]]].
  destruct Hc as [-> | [_ [Hpath [homeDir [_ ->]]]]].
  - cbn [config.reapply_overrides config.Database config.Logging config.Type'
         config.Path config.Host config.Port config.Name config.User
         config.Password config.SSLMode config.Level config.Format].
    repeat (split; [intros Hne; now apply Hset|]).
    intros Hne n Hn. unfold m. rewrite overrides_lookup.
    cbn [existsb config.envVars String.eqb Ascii.eqb Bool.eqb orb].
    unfold config.getEnvIntOrDefault.
    destruct (String.eqb_spec (config.Getenv os "DB_PORT") ""); [contradiction|].
    now rewrite Hn.
  - cbn [config.reapply_overrides config.Database config.Path] in Hpath.
    cbn [config.set_Path config.reapply_overrides config.Database config.Logging
         config.Type' config.Path config.Host config.Port config.Name config.User
         config.Password config.SSLMode config.Level config.Format].
    split; [intros Hne; now apply Hset|].
    split.
    { intros Hne. rewrite (Hset "DB_PATH" _ eq_refl Hne) in Hpath. contradiction. }
    repeat (split; [intros Hne; now apply Hset|]).
    intros Hne n Hn. unfold m. rewrite overrides_lookup.
    cbn [existsb config.envVars String.eqb Ascii.eqb Bool.eqb orb].
    unfold config.getEnvIntOrDefault.
    destruct (String.eqb_spec (config.Getenv os "DB_PORT") ""); [contradiction|].
    now rewrite Hn.
Qed.

Lemma Load_environment_wins_witness :
  exists cfg,
    config.Load demo_os = Ok cfg
    /\ config.Path (config.Database cfg) = "/tmp/env-override.db"
    /\ config.Level (config.Logging cfg) = "debug".
Proof.
  assert (Hrun : config.Load demo_os
                 = Ok (config.mkConfig
                         (config.mkDatabaseConfig "sqlite" "/tmp/env-override.db"
                            "localhost" 5432 "taskmanager" "" "" "disable")
                         (config.mkLoggingConfig "debug" "text"))).
  { vm_compute. reflexivity. }
  destruct (Load_environment_wins demo_os _ Hrun) as [_ [Hp [_ [_ [_ [_ [_ [Hl _]]]]]]]].
  eexists. split; [exact Hrun|]. split.
  - apply Hp. discriminate.
  - apply Hl. discriminate.
Defined.

Lemma getEnvIntOrDefault_twice (os : config.OS) (key : string) (d : Z) :
  config.getEnvIntOrDefault os key (config.getEnvIntOrDefault os key d)
  = config.getEnvIntOrDefault os key d.
Proof.
  unfold config.getEnvIntOrDefault.
  destruct (String.eqb (config.Getenv os key) ""); [reflexivity|].
  now destruct (config.Sscanf_d os (config.Getenv os key)).
Qed.

Lemma reapply_default (os : config.OS) (key d : string) :
  existsb (String.eqb key) config.envVars = true ->
  config.reapply (config.collect_overrides os config.envVars) key
    (config.getEnvOrDefault os key d)
  = config.getEnvOrDefault os key d.
Proof.
  intros Hk. rewrite (reapply_set _ _ _ Hk). unfold config.getEnvOrDefault.
  now destruct (String.eqb (config.Getenv os key) "").
Qed.

Lemma reapply_defaults (os : config.OS) :
  config.reapply_overrides os (config.collect_overrides os config.envVars)
    (config.defaults os)
  = config.defaults os.
Proof.
  unfold config.reapply_overrides, config.defaults.
  cbn [config.Database config.Logging config.Type' config.Path config.Host
       config.Port config.Name config.User config.Password config.SSLMode
       config.Level config.Format].
  rewrite !reapply_default by reflexivity.
  rewrite getEnvIntOrDefault_twice.
  now destruct (config.map_lookup _ "DB_PORT").
Qed.

(** With [CONFIG_FILE] unset and no [config.yaml], [Load] does not fail
    for want of a file: it returns the defaults and the environment's
    values, validated. *)
Theorem Load_without_config_file (os : config.OS) :
  config.Getenv os "CONFIG_FILE" = "" ->
  config.file_at os "config.yaml" = config.NotExist ->
  config.Load os
  = match config.Validate os (config.defaults os) with
    | (Some err, _) => Err (fmt_Errorf "invalid configuration" err)
    | (None, cfg) => Ok cfg
    end.
Proof.
  intros Henv Hfile. unfold config.Load, config.getEnvOrDefault, config.loadFromFile.
  cbv zeta. rewrite Henv. cbn [String.eqb Ascii.eqb Bool.eqb negb].
  rewrite Hfile. cbn [fst snd]. now rewrite reapply_defaults.
Qed.

Lemma Load_without_config_file_witness :
  config.Load bare_os
  = match config.Validate bare_os (config.defaults bare_os) with
    | (Some err, _) => Err (fmt_Errorf "invalid configuration" err)
    | (None, cfg) => Ok cfg
    end.
Proof.
  apply (Load_without_config_file bare_os); reflexivity.
Defined.

(** With [CONFIG_FILE] naming a file that does not exist, or one that
    cannot be read, [Load] fails with that error wrapped, whatever else
    the environment holds. *)
Theorem Load_named_file_missing (os : config.OS) :
  config.Getenv os "CONFIG_FILE" <> "" ->
  (config.file_at os (config.Getenv os "CONFIG_FILE") = config.NotExist ->
   config.Load os
   = Err (fmt_Errorf "failed to load config file"
            (errors_New (String.append "config file not found: "
                           (config.Getenv os "CONFIG_FILE")))))
  /\ (forall e,
        config.file_at os (config.Getenv os "CONFIG_FILE") = config.Unreadable e ->
        config.Load os
        = Err (fmt_Errorf "failed to load config file"
                 (fmt_Errorf "failed to read config file" e))).
Proof.
  intros Henv.
  assert (Hne : String.eqb (config.Getenv os "CONFIG_FILE") "" = false)
    by now apply String.eqb_neq.
  split; [intros Hfile | intros e Hfile];
    unfold config.Load, config.getEnvOrDefault, config.loadFromFile;
    cbv zeta; rewrite Hne; cbn [negb]; rewrite Hne, Hfile; reflexivity.
Qed.

Lemma Load_named_file_missing_witness :
  config.Load missing_file_os
  = Err (fmt_Errorf "failed to load config file"
           (errors_New (String.append "config file not found: "
                          (config.Getenv missing_file_os "CONFIG_FILE")))).
Proof.
  apply (Load_named_file_missing missing_file_os).
  - discriminate.
  - reflexivity.
Defined.
